(** * Flip Grid: the puzzle engine, the competition run and the level import

    A shallow embedding of [utils/gameLogic.ts], of the [App] component
    (state, event handlers and the auto-advance callback) and of the
    import/export handlers of [components/AdminPanel.tsx], followed by the
    properties the specification states about them.

    Conventions.  JavaScript numbers that hold counts, seconds and
    millisecond timestamps are integers here ([Z]); arrays are lists read
    with [!!]; a React state cell is a record field and an event handler is
    a function from the state of the render it was created in to the state
    after its batched updates. *)

From Stdlib Require Import Ascii.
From stdpp Require Import base numbers list strings gmap pretty.

(* ================================================================= *)
(** ** types.ts *)

Module Types.

(** [export type CellState = boolean]: true = lit. *)
Definition CellState : Type := bool.

Definition GRID_SIZE : nat := 3.

(** [export const TOTAL_CELLS = GRID_SIZE * GRID_SIZE] *)
Definition TOTAL_CELLS : nat := GRID_SIZE * GRID_SIZE.

(** [interface Level], with the types of [name] and of the cells left
    open: the game code uses it at [string] and [CellState], the import
    handler builds it from unchecked [any] values. *)
Record Level_ (N C : Type) : Type := mkLevel {
  id : string;
  name : N;
  initialState : list C
}.
Arguments mkLevel {N C} _ _ _.
Arguments id {N C} _.
Arguments name {N C} _.
Arguments initialState {N C} _.

Abbreviation Level := (Level_ string CellState).

Record GameStats : Type := mkStats {
  timeSeconds : Z;
  steps : Z
}.

Module LevelRecord.
Record t : Type := mk {
  levelId : string;
  name : string;
  stats : GameStats
}.
End LevelRecord.

Inductive GameStatus : Type :=
| SETUP
| IDLE
| PLAYING
| LEVEL_COMPLETE
| ALL_COMPLETE.

#[export] Instance GameStatus_eq_dec : EqDecision GameStatus.
Proof. solve_decision. Defined.

#[export] Instance GameStats_eq_dec : EqDecision GameStats.
Proof. solve_decision. Defined.

End Types.

Export Types.

(* ================================================================= *)
(** ** Arrays of cells *)

Module JsArray.

(** An array as JavaScript holds it while it is written to: a slot holds
    a cell or nothing.  Nothing is a hole left by a write past the end;
    it reads as [undefined]. *)
Abbreviation slots := (list (option CellState)).

(** The array whose elements are the given cells. *)
Definition ofCells (cells : list CellState) : slots := Some <$> cells.

(** The cells of an array in which every slot holds one; an array with an
    empty slot is no [CellState[]], which is [None]. *)
Fixpoint toCells (a : slots) : option (list CellState) :=
  match a with
  | [] => Some []
  | slot :: a => cell ← slot; cells ← toCells a; Some (cell :: cells)
  end.

(** [a[i]] read: [None] stands for [undefined], the value of an empty
    slot and of an index past the end. *)
Definition get (a : slots) (i : nat) : option CellState :=
  match a !! i with
  | Some (Some cell) => Some cell
  | _ => None
  end.

(** [!v] for a cell or [undefined]: [!undefined] is [true]. *)
Definition not (v : option CellState) : CellState :=
  match v with
  | Some b => negb b
  | None => true
  end.

(** [a[i] = v].  Inside the array the slot is overwritten; past the end
    the array grows up to index [i], and the slots between the old end
    and [i] are left empty. *)
Definition set (a : slots) (i : nat) (v : CellState) : slots :=
  if i <? length a then <[i := Some v]> a
  else a ++ replicate (i - length a) None ++ [Some v].

(** [a[i] = !a[i]] *)
Definition flip (i : nat) (a : slots) : slots :=
  set a i (not (get a i)).

End JsArray.

(* ================================================================= *)
(** ** utils/gameLogic.ts *)

Module GameLogic.

Import JsArray.

(** [Array(TOTAL_CELLS).fill(false)] *)
Definition createEmptyGrid : list CellState := replicate TOTAL_CELLS false.

(** [toggleGridCell], as a function of the array contents.  [newGrid]
    starts as the spread copy of [grid]; each guarded block of the source
    is one line.  The result is [None] when the array returned still has
    an empty slot (which needs an index at least two past the end). *)
Definition toggleGridCell (grid : list CellState) (index : nat)
  : option (list CellState) :=
  let newGrid := ofCells grid in
  let row := index / GRID_SIZE in
  let col := index mod GRID_SIZE in
  let newGrid := flip index newGrid in
  let newGrid := if 0 <? row
                 then flip ((row - 1) * GRID_SIZE + col) newGrid
                 else newGrid in
  let newGrid := if row <? GRID_SIZE - 1
                 then flip ((row + 1) * GRID_SIZE + col) newGrid
                 else newGrid in
  let newGrid := if 0 <? col
                 then flip (row * GRID_SIZE + (col - 1)) newGrid
                 else newGrid in
  let newGrid := if col <? GRID_SIZE - 1
                 then flip (row * GRID_SIZE + (col + 1)) newGrid
                 else newGrid in
  toCells newGrid.

(** [grid.every((cell) => cell === true)] *)
Definition isLevelSolved (grid : list CellState) : bool :=
  forallb (fun cell => bool_decide (cell = true)) grid.

End GameLogic.

(* ================================================================= *)
(** ** The same function over a store of arrays

    [toggleGridCell] receives a reference to an array and returns a
    reference.  Here references are locations of a store, the spread
    [[...grid]] allocates, and every assignment writes through the
    reference [newGrid]. *)

Module Store.

Import JsArray.

Definition loc : Type := nat.
Abbreviation heap := (gmap nat (list (option CellState))).

(** Where the next array is allocated: a location not in use. *)
Definition freshLoc (h : heap) : loc := fresh (dom h).

(** [[...a]]: a fresh array with the elements of the one at [src]. *)
Definition spread (h : heap) (src : loc) : option (loc * heap) :=
  a ← h !! src;
  let l := freshLoc h in
  Some (l, <[l := a]> h).

(** [r[i] = !r[i]] through the reference [r]. *)
Definition flipAt (r : loc) (i : nat) (h : heap) : option heap :=
  a ← h !! r;
  Some (<[r := flip i a]> h).

Definition toggleGridCell (h : heap) (grid : loc) (index : nat)
  : option (loc * heap) :=
  '(newGrid, h) ← spread h grid;
  let row := index / GRID_SIZE in
  let col := index mod GRID_SIZE in
  h ← flipAt newGrid index h;
  h ← (if 0 <? row
       then flipAt newGrid ((row - 1) * GRID_SIZE + col) h
       else Some h);
  h ← (if row <? GRID_SIZE - 1
       then flipAt newGrid ((row + 1) * GRID_SIZE + col) h
       else Some h);
  h ← (if 0 <? col
       then flipAt newGrid (row * GRID_SIZE + (col - 1)) h
       else Some h);
  h ← (if col <? GRID_SIZE - 1
       then flipAt newGrid (row * GRID_SIZE + (col + 1)) h
       else Some h);
  Some (newGrid, h).

End Store.

(* ================================================================= *)
(** ** The App component: state, handlers, timers *)

Module App.

Import GameLogic.

(** What the arrow function given to [setTimeout] in
    [handleLevelComplete] closes over: [currentLevelIdx] and [levels]
    ([loadLevel] reads the same [levels]) of the render in which the
    winning click was handled. *)
Record AutoAdvance : Type := mkAutoAdvance {
  capturedLevelIdx : nat;
  capturedLevels : list Level
}.

(** The [useState] cells of [App], the interval reference and the
    one-shot callbacks that have been scheduled and have not run yet.
    [timerIntervalRef] holds [Some t] while an interval is installed, [t]
    being the [startTime] its callback closed over; [None] is [null]. *)
Record State : Type := mkState {
  levels : list Level;
  currentLevelIdx : nat;
  grid : list CellState;
  status : GameStatus;
  showQuitModal : bool;
  levelStats : GameStats;
  history : list LevelRecord.t;
  startTime : option Z;
  timerIntervalRef : option Z;
  pendingTimeouts : list AutoAdvance
}.

Definition initialState : State :=
  mkState [] 0 createEmptyGrid SETUP false (mkStats 0 0) [] None None [].

(** *** Setters *)

Definition setLevels (v : list Level) (s : State) : State :=
  mkState v (currentLevelIdx s) (grid s) (status s) (showQuitModal s)
          (levelStats s) (history s) (startTime s) (timerIntervalRef s)
          (pendingTimeouts s).

Definition setCurrentLevelIdx (v : nat) (s : State) : State :=
  mkState (levels s) v (grid s) (status s) (showQuitModal s)
          (levelStats s) (history s) (startTime s) (timerIntervalRef s)
          (pendingTimeouts s).

Definition setGrid (v : list CellState) (s : State) : State :=
  mkState (levels s) (currentLevelIdx s) v (status s) (showQuitModal s)
          (levelStats s) (history s) (startTime s) (timerIntervalRef s)
          (pendingTimeouts s).

Definition setStatus (v : GameStatus) (s : State) : State :=
  mkState (levels s) (currentLevelIdx s) (grid s) v (showQuitModal s)
          (levelStats s) (history s) (startTime s) (timerIntervalRef s)
          (pendingTimeouts s).

Definition setShowQuitModal (v : bool) (s : State) : State :=
  mkState (levels s) (currentLevelIdx s) (grid s) (status s) v
          (levelStats s) (history s) (startTime s) (timerIntervalRef s)
          (pendingTimeouts s).

Definition setLevelStats (v : GameStats) (s : State) : State :=
  mkState (levels s) (currentLevelIdx s) (grid s) (status s) (showQuitModal s)
          v (history s) (startTime s) (timerIntervalRef s)
          (pendingTimeouts s).

Definition setHistory (v : list LevelRecord.t) (s : State) : State :=
  mkState (levels s) (currentLevelIdx s) (grid s) (status s) (showQuitModal s)
          (levelStats s) v (startTime s) (timerIntervalRef s)
          (pendingTimeouts s).

Definition setStartTime (v : option Z) (s : State) : State :=
  mkState (levels s) (currentLevelIdx s) (grid s) (status s) (showQuitModal s)
          (levelStats s) (history s) v (timerIntervalRef s)
          (pendingTimeouts s).

Definition setTimerIntervalRef (v : option Z) (s : State) : State :=
  mkState (levels s) (currentLevelIdx s) (grid s) (status s) (showQuitModal s)
          (levelStats s) (history s) (startTime s) v
          (pendingTimeouts s).

Definition setPendingTimeouts (v : list AutoAdvance) (s : State) : State :=
  mkState (levels s) (currentLevelIdx s) (grid s) (status s) (showQuitModal s)
          (levelStats s) (history s) (startTime s) (timerIntervalRef s)
          v.

(** [startTime ? ... : ...] and [status === PLAYING && startTime]: a
    timestamp is truthy unless it is [null] or [0]. *)
Definition truthy (t : option Z) : bool :=
  match t with
  | Some z => negb (z =? 0)%Z
  | None => false
  end.

(** *** Derived total stats ([React.useMemo]) *)

Definition totalStats (history : list LevelRecord.t) (levelStats : GameStats)
    (status : GameStatus) : GameStats :=
  let historyTotal :=
    fold_left
      (fun acc curr =>
         mkStats (timeSeconds acc + timeSeconds (LevelRecord.stats curr))
                 (steps acc + steps (LevelRecord.stats curr)))
      history (mkStats 0 0) in
  if bool_decide (status = PLAYING) || bool_decide (status = LEVEL_COMPLETE)
  then mkStats (timeSeconds historyTotal + timeSeconds levelStats)
               (steps historyTotal + steps levelStats)
  else historyTotal.

(** *** Handlers

    A handler reads the state of the render it belongs to, [r], and
    queues updates; the result is [r] with the updates applied in order.
    [None] is a run that leaves this model: an uncaught [TypeError], or a
    grid that is no longer an array of cells. *)

Definition loadLevel (levels : list Level) (idx : nat) (s : State) : State :=
  match levels !! idx with
  | None => s                     (* idx >= levels.length *)
  | Some level =>
      setStartTime None
        (setLevelStats (mkStats 0 0)
           (setGrid (Types.initialState level) s))
  end.

Definition startGame (r : State) : State :=
  if length (levels r) =? 0 then r
  else loadLevel (levels r) 0
         (setHistory [] (setCurrentLevelIdx 0 (setStatus IDLE r))).

Definition quitToSetup (r : State) : State :=
  setStatus SETUP
    (setShowQuitModal false
       (setStartTime None
          (setTimerIntervalRef None r))).

Definition startPlayingLevel (now : Z) (r : State) : State :=
  setStartTime (Some now) (setStatus PLAYING r).

(** The callback scheduled by [handleLevelComplete], run at time [now]
    on the state [s] current at that moment, with its captured
    environment [c]. *)
Definition autoAdvance (now : Z) (c : AutoAdvance) (s : State) : State :=
  let nextIdx := capturedLevelIdx c + 1 in
  if nextIdx <? length (capturedLevels c) then
    setStartTime (Some now)
      (setStatus PLAYING
         (loadLevel (capturedLevels c) nextIdx
            (setCurrentLevelIdx nextIdx s)))
  else setStatus ALL_COMPLETE s.

(** [handleLevelComplete], called from [handleCellClick]: [r] is the
    render state it reads ([levels], [currentLevelIdx], [startTime],
    [levelStats]); [s] carries the updates already queued by the caller.
    [currentLevel.id] on a missing level throws. *)
Definition handleLevelComplete (now : Z) (r : State)
    (finalGrid : list CellState) (s : State) : option State :=
  currentLevel ← levels r !! currentLevelIdx r;
  let finalTime :=
    if truthy (startTime r)
    then ((now - default 0%Z (startTime r)) / 1000)%Z
    else timeSeconds (levelStats r) in
  let finalStats := mkStats finalTime (steps (levelStats r) + 1) in
  let record :=
    LevelRecord.mk (id currentLevel) (name currentLevel) finalStats in
  Some (setPendingTimeouts
          (pendingTimeouts s ++ [mkAutoAdvance (currentLevelIdx r) (levels r)])
          (setStatus LEVEL_COMPLETE
             (setHistory (history s ++ [record])
                (setLevelStats finalStats s)))).

Definition handleCellClick (now : Z) (index : nat) (r : State) : option State :=
  if negb (bool_decide (status r = PLAYING)) then Some r
  else
    newGrid ← toggleGridCell (grid r) index;
    let s := setGrid newGrid r in
    let s := setLevelStats
               (mkStats (timeSeconds (levelStats s)) (steps (levelStats s) + 1)) s in
    if isLevelSolved newGrid then handleLevelComplete now r newGrid s
    else Some s.

(** The interval callback: [setLevelStats(prev => ({...prev, timeSeconds}))]
    with the [startTime] of its closure. *)
Definition intervalTick (now : Z) (s : State) : State :=
  match timerIntervalRef s with
  | Some t0 =>
      setLevelStats (mkStats ((now - t0) / 1000) (steps (levelStats s))) s
  | None => s
  end.

(** The timer effect, with dependencies [[status, startTime]]: it runs
    after a commit in which one of them changed, first its previous
    cleanup, then its body.  Either way the reference ends up holding the
    new interval or [null]. *)
Definition timerEffect (prev next : State) : State :=
  if bool_decide (status prev = status next)
     && bool_decide (startTime prev = startTime next)
  then next
  else if bool_decide (status next = PLAYING) && truthy (startTime next)
       then setTimerIntervalRef (startTime next) next
       else setTimerIntervalRef None next.

(** *** Events

    What can happen to a mounted [App].  The clock readings are those of
    [Date.now()] inside the handler. *)
Inductive Event : Type :=
| AdminSetLevels (ls : list Level)   (* AdminPanel calls [setLevels] *)
| StartCompetition                   (* AdminPanel: onStartCompetition *)
| StartChallenge (now : Z)           (* the button of the IDLE cover *)
| CellClick (index : nat) (now : Z)
| OpenQuitModal
| CancelQuit
| ConfirmQuit
| ReturnToSetup                      (* the button of the final summary *)
| IntervalFires (now : Z)
| TimeoutFires (now : Z).            (* the oldest pending callback runs *)

(** The handler behind each event.  A control is reachable only where it
    is rendered: in SETUP the component returns the admin panel alone;
    the quit modal, the IDLE cover and the summary are conditional; a
    cell button is disabled outside PLAYING. *)
Definition handle (e : Event) (r : State) : option State :=
  match e with
  | AdminSetLevels ls =>
      Some (if bool_decide (status r = SETUP) then setLevels ls r else r)
  | StartCompetition =>
      Some (if bool_decide (status r = SETUP) && negb (length (levels r) =? 0)
            then startGame r else r)
  | StartChallenge now =>
      Some (if bool_decide (status r = IDLE) then startPlayingLevel now r else r)
  | CellClick index now =>
      if bool_decide (status r = PLAYING) && (index <? length (grid r))
      then handleCellClick now index r else Some r
  | OpenQuitModal =>
      Some (if bool_decide (status r = SETUP) then r else setShowQuitModal true r)
  | CancelQuit =>
      Some (if negb (bool_decide (status r = SETUP)) && showQuitModal r
            then setShowQuitModal false r else r)
  | ConfirmQuit =>
      Some (if negb (bool_decide (status r = SETUP)) && showQuitModal r
            then quitToSetup r else r)
  | ReturnToSetup =>
      Some (if bool_decide (status r = ALL_COMPLETE) then setStatus SETUP r else r)
  | IntervalFires now => Some (intervalTick now r)
  | TimeoutFires now =>
      match pendingTimeouts r with
      | [] => Some r
      | c :: rest => Some (autoAdvance now c (setPendingTimeouts rest r))
      end
  end.

(** One event, as far as the state goes: the handler, then the effect of
    the commit. *)
Definition step (r : State) (e : Event) : option State :=
  s ← handle e r; Some (timerEffect r s).

(** The render of a state.  In SETUP the component returns the admin
    panel; in every other phase it reads [levels[currentLevelIdx]] and
    shows [currentLevel.name], which throws when that level is missing. *)
Definition renders (s : State) : bool :=
  bool_decide (status s = SETUP)
  || bool_decide (is_Some (levels s !! currentLevelIdx s)).

(** The mounted component: after each event the new state is rendered,
    and a render that throws unmounts the component ([None]). *)
Fixpoint run (r : State) (es : list Event) : option State :=
  match es with
  | [] => Some r
  | e :: es => s ← step r e; if renders s then run s es else None
  end.

(** The clock reading carried by an event, if any. *)
Definition clockOf (e : Event) : option Z :=
  match e with
  | StartChallenge now | CellClick _ now | IntervalFires now
  | TimeoutFires now => Some now
  | _ => None
  end.

End App.

(* ================================================================= *)
(** ** The App component: the clock display *)

Module Display.

(** [n] characters ['0']. *)
Fixpoint zeros (n : nat) : string :=
  match n with
  | 0 => EmptyString
  | S n => String "0" (zeros n)
  end.

(** [s.padStart(2, '0')] *)
Definition padStart2 (s : string) : string :=
  zeros (2 - String.length s) +:+ s.

(** [formatTime], on a whole number of seconds (what [timeSeconds] holds):
    [Math.floor(seconds / 60)] rounds down, [%] takes the sign of
    [seconds], and a number below 10^21 prints in decimal. *)
Definition formatTime (seconds : Z) : string :=
  let mins := (seconds / 60)%Z in
  let secs := Z.rem seconds 60 in
  padStart2 (pretty mins) +:+ ":" +:+ padStart2 (pretty secs).

End Display.

(* ================================================================= *)
(** ** Parsed JSON *)

Module Json.

(** The values [JSON.parse] returns.  Of a number this code only ever
    asks whether it is truthy, so integers stand for all numbers. *)
#[warnings="-register-all"]
Inductive t : Type :=
| Null
| Bool (b : bool)
| Num (n : Z)
| Str (s : string)
| Arr (elems : list t)
| Obj (fields : list (string * t)).

(** The members of a parsed object, in document order; on a repeated
    key the last one is the object's property. *)
Fixpoint getField (k : string) (fields : list (string * t)) : option t :=
  match fields with
  | [] => None
  | (k', v) :: fields =>
      match getField k fields with
      | Some w => Some w
      | None => if bool_decide (k = k') then Some v else None
      end
  end.

(** Truthiness of a value that is present. *)
Definition truthy (v : t) : bool :=
  match v with
  | Null => false
  | Bool b => b
  | Num n => negb (n =? 0)%Z
  | Str s => negb (bool_decide (s = ""%string))
  | Arr _ | Obj _ => true
  end.

Definition isArray (v : t) : bool :=
  match v with Arr _ => true | _ => false end.

(** [typeof v === 'object'] *)
Definition typeofObject (v : t) : bool :=
  match v with Null | Arr _ | Obj _ => true | _ => false end.

Definition isBool (v : t) : bool :=
  match v with Bool _ => true | _ => false end.

Definition isNull (v : t) : bool :=
  match v with Null => true | _ => false end.

End Json.

(* ================================================================= *)
(** ** components/AdminPanel.tsx: import and export *)

Module AdminPanel.

(** A level as the panel holds it at run time.  [parseAndLoadLevels]
    copies [name] and [initialState] from values typed [any]. *)
Abbreviation AnyLevel := (Level_ Json.t Json.t).

(** A level of the declared type, as a run-time value. *)
Definition ofLevel (l : Level) : AnyLevel :=
  mkLevel (id l) (Json.Str (name l)) (Json.Bool <$> Types.initialState l).

(** The readings the import takes while it builds the level of index
    [idx]: [Date.now()], and the characters that
    [Math.random().toString(36).substr(2, 9)] yields. *)
Record Readings : Type := mkReadings {
  dateNow : nat → Z;
  randomSuffix : nat → string
}.

Inductive ImportError : Type :=
| SyntaxError       (* thrown by [JSON.parse] *)
| NotAnArray        (* "JSON 数据必须是数组 (Array)" *)
| NoValidLevels     (* "未找到有效关卡数据，请检查 initialState 格式" *)
| TypeError.        (* a property read on [null] *)

(** What the handler reports with [alert]. *)
Inductive Alert : Type :=
| Imported (count : nat)
| ImportFailed (e : ImportError).

Record State : Type := mkState {
  levels : list AnyLevel;
  jsonInput : string;
  exportData : option string
}.

(** [l.k] for [k] one of [initialState], [name]: a read on [null]
    throws, a value that is not an object has no such property
    ([undefined], here [None]). *)
Definition getProp (l : Json.t) (k : string) : ImportError + option Json.t :=
  match l with
  | Json.Null => inl TypeError
  | Json.Obj fields => inr (Json.getField k fields)
  | _ => inr None
  end.

(** The predicate given to [filter]:
    [l.initialState && Array.isArray(l.initialState)
     && l.initialState.length === TOTAL_CELLS], as [filter] sees it. *)
Definition isValidLevel (l : Json.t) : ImportError + bool :=
  match getProp l "initialState" with
  | inl e => inl e
  | inr None => inr false
  | inr (Some v) =>
      inr (Json.truthy v && Json.isArray v &&
           match v with
           | Json.Arr cells => length cells =? TOTAL_CELLS
           | _ => false
           end)
  end.

(** [parsed.filter(...)], stopping at the first element on which the
    predicate throws. *)
Fixpoint filterValid (elems : list Json.t) : ImportError + list Json.t :=
  match elems with
  | [] => inr []
  | l :: elems =>
      match isValidLevel l with
      | inl e => inl e
      | inr keep =>
          match filterValid elems with
          | inl e => inl e
          | inr rest => inr (if keep then l :: rest else rest)
          end
      end
  end.

(** [`import-${Date.now()}-${idx}-${...}`] *)
Definition importId (now : Z) (idx : nat) (suffix : string) : string :=
  "import-" +:+ pretty now +:+ "-" +:+ pretty idx +:+ "-" +:+ suffix.

(** [`导入关卡 ${idx + 1}`] *)
Definition importedName (idx : nat) : string :=
  "导入关卡 " +:+ pretty (idx + 1).

(** [l.name || importedName]: every falsy [name] gives the label. *)
Definition nameOrDefault (l : Json.t) (idx : nat) : Json.t :=
  match getProp l "name" with
  | inr (Some v) => if Json.truthy v then v else Json.Str (importedName idx)
  | _ => Json.Str (importedName idx)
  end.

(** [l.initialState] of an element that passed the filter. *)
Definition cellsOf (l : Json.t) : list Json.t :=
  match getProp l "initialState" with
  | inr (Some (Json.Arr cells)) => cells
  | _ => []
  end.

(** The function given to [validLevels.map]. *)
Definition cleanLevel (R : Readings) (idx : nat) (l : Json.t) : AnyLevel :=
  mkLevel (importId (dateNow R idx) idx (randomSuffix R idx))
          (nameOrDefault l idx)
          (cellsOf l).

(** [parseAndLoadLevels]; [parsed] is what [JSON.parse(jsonString)]
    returned, [None] if it threw.  Every [throw] lands in the [catch],
    which alerts and changes nothing. *)
Definition parseAndLoadLevels (R : Readings) (parsed : option Json.t)
    (s : State) : State * Alert :=
  match parsed with
  | None => (s, ImportFailed SyntaxError)
  | Some parsed =>
      let parsed :=
        if negb (Json.isArray parsed) && Json.typeofObject parsed
        then Json.Arr [parsed] else parsed in
      match parsed with
      | Json.Arr elems =>
          match filterValid elems with
          | inl e => (s, ImportFailed e)
          | inr validLevels =>
              if length validLevels =? 0 then (s, ImportFailed NoValidLevels)
              else
                let cleanedLevels := imap (cleanLevel R) validLevels in
                (mkState (levels s ++ cleanedLevels) "" (exportData s),
                 Imported (length cleanedLevels))
          end
      | _ => (s, ImportFailed NotAnArray)
      end
  end.

(** [addLevelFromEditor] and [removeLevel]. *)
Definition addLevelFromEditor (now : Z) (editorGrid : list CellState)
    (s : State) : State :=
  let newLevel : Level :=
    mkLevel ("level-" +:+ pretty now)
            ("关卡 " +:+ pretty (length (levels s) + 1))
            editorGrid in
  mkState (levels s ++ [ofLevel newLevel]) (jsonInput s) (exportData s).

Definition removeLevel (id : string) (s : State) : State :=
  mkState (filter (fun l => Types.id l ≠ id) (levels s))
          (jsonInput s) (exportData s).

Section JsonExport.

(** [JSON.stringify(levels, null, 2)], the platform's serializer. *)
Variable stringify : list AnyLevel → string.

Definition handleJsonExport (s : State) : State :=
  let data := stringify (levels s) in
  mkState (levels s) (jsonInput s) (Some data).

(** A click on the export button.  The button carries
    [disabled={levels.length === 0}], and a disabled button runs no
    handler. *)
Definition clickExport (s : State) : State :=
  if length (levels s) =? 0 then s else handleJsonExport s.

(** The close buttons of the export overlay. *)
Definition closeExport (s : State) : State :=
  mkState (levels s) (jsonInput s) None.

End JsonExport.

End AdminPanel.

(* ================================================================= *)
(** ** components/AdminPanel.tsx: the editor and the list *)

Module Editor.

Import AdminPanel.

(** [handleEditorClick]: the copy of [editorGrid] with one cell
    inverted, written with the same array assignment as the game's
    toggle. *)
Definition handleEditorClick (index : nat) (editorGrid : list CellState)
  : option (list CellState) :=
  let newGrid := JsArray.ofCells editorGrid in
  let newGrid := JsArray.flip index newGrid in
  JsArray.toCells newGrid.

(** The reset button of the editor: [setEditorGrid(createEmptyGrid())]. *)
Definition resetEditor : list CellState := GameLogic.createEmptyGrid.

(** The "clear list" button, once confirmed: [setLevels([])]. *)
Definition clearLevels (s : State) : State :=
  mkState [] (jsonInput s) (exportData s).



End Editor.

(* ================================================================= *)
(** ** The words of the specification *)

(** *** The plus shape on the board *)

Module Plus.

Definition rowOf (i : nat) : nat := i / GRID_SIZE.
Definition colOf (i : nat) : nat := i mod GRID_SIZE.

(** [j] is the cell directly above, below, left or right of [i]. *)
Definition orthogonal (i j : nat) : bool :=
  ((colOf i =? colOf j) && ((rowOf i =? rowOf j + 1) || (rowOf j =? rowOf i + 1)))
  || ((rowOf i =? rowOf j) && ((colOf i =? colOf j + 1) || (colOf j =? colOf i + 1))).

(** [j] touches [i] at a corner only. *)
Definition diagonal (i j : nat) : bool :=
  ((rowOf i =? rowOf j + 1) || (rowOf j =? rowOf i + 1))
  && ((colOf i =? colOf j + 1) || (colOf j =? colOf i + 1)).

(** The cells a toggle at [i] inverts: [i] and its orthogonal
    neighbours. *)
Definition inPlus (i j : nat) : bool := (i =? j) || orthogonal i j.

Definition isCorner (i : nat) : bool :=
  ((rowOf i =? 0) || (rowOf i =? GRID_SIZE - 1))
  && ((colOf i =? 0) || (colOf i =? GRID_SIZE - 1)).

Definition isInterior (i : nat) : bool :=
  (0 <? rowOf i) && (rowOf i <? GRID_SIZE - 1)
  && (0 <? colOf i) && (colOf i <? GRID_SIZE - 1).

(** Number of positions at which two grids differ. *)
Fixpoint changedCells (g g' : list CellState) : nat :=
  match g, g' with
  | b :: g, b' :: g' => (if bool_decide (b = b') then 0 else 1) + changedCells g g'
  | _, _ => 0
  end.

End Plus.

(** *** Sums over the history *)

Module Sums.

(** The sums the specification speaks of, over the history entries. *)
Definition sumSeconds (history : list LevelRecord.t) : Z :=
  foldr (fun rec acc => (timeSeconds (LevelRecord.stats rec) + acc)%Z) 0%Z history.

Definition sumSteps (history : list LevelRecord.t) : Z :=
  foldr (fun rec acc => (steps (LevelRecord.stats rec) + acc)%Z) 0%Z history.

End Sums.

(** *** Runs of the controller *)

Module Runs.

Import App.

(** In PLAYING the start time is set. *)
Definition playingTimed (s : State) : Prop :=
  status s = PLAYING → truthy (startTime s) = true.

Definition clocksSet (es : list Event) : Prop :=
  Forall (fun e => clockOf e ≠ Some 0%Z) es.

Definition levelOne : Level :=
  mkLevel "level-1" "One"
    [true; false; true; false; false; false; true; false; true].

Definition levelTwo : Level :=
  mkLevel "level-2" "Two"
    [false; false; false; false; false; false; false; false; false].

(** Two levels are configured, the competition is started, the first
    level is solved by one click on the centre, and the user confirms
    the quit before the second has passed. *)
Definition quitWhilePending : list Event :=
  [ AdminSetLevels [levelOne; levelTwo];
    StartCompetition;
    StartChallenge 1000;
    CellClick 4 3000;
    OpenQuitModal;
    ConfirmQuit ].

(** The first level in play since the clock read 1000, the tick having
    last written one second. *)
Definition playingOne : State :=
  mkState [levelOne; levelTwo] 0 (Types.initialState levelOne) PLAYING false
          (mkStats 1 0) [] (Some 1000%Z) (Some 1000%Z) [].

End Runs.

(** *** Level documents *)

Module Documents.

Import AdminPanel.

(** The filter keeps [l]. *)
Definition accepts (l : Json.t) : bool :=
  match isValidLevel l with
  | inr true => true
  | _ => false
  end.

(** The candidate is an object whose [initialState] is an array of
    [TOTAL_CELLS] elements. *)
Definition hasNineCells (l : Json.t) : bool :=
  match l with
  | Json.Obj fields =>
      match Json.getField "initialState" fields with
      | Some (Json.Arr cells) => length cells =? TOTAL_CELLS
      | _ => false
      end
  | _ => false
  end.

(** As the specification words it: an [initialState] that is a sequence
    of exactly N booleans. *)
Definition hasNineBooleans (l : Json.t) : bool :=
  match l with
  | Json.Obj fields =>
      match Json.getField "initialState" fields with
      | Some (Json.Arr cells) =>
          (length cells =? TOTAL_CELLS) && forallb Json.isBool cells
      | _ => false
      end
  | _ => false
  end.

(** [name] is absent or the empty string. *)
Definition nameAbsentOrEmpty (l : Json.t) : bool :=
  match getProp l "name" with
  | inr None | inr (Some (Json.Str "")) => true
  | _ => false
  end.

(** The elements of a document: those of a collection, or the bare
    value alone. *)
Definition elementsOf (parsed : Json.t) : list Json.t :=
  match parsed with
  | Json.Arr elems => elems
  | _ => [parsed]
  end.

(** Removing the members called [id] from an object changes no other
    property. *)
Definition withoutId (fields : list (string * Json.t)) : list (string * Json.t) :=
  List.filter (fun p => negb (bool_decide (p.1 = "id"%string))) fields.

(** No character of the string is the separator. *)
Fixpoint dashFree (s : string) : Prop :=
  match s with
  | EmptyString => True
  | String c s => c ≠ "-"%char ∧ dashFree s
  end.

(** Nine numbers where booleans are expected. *)
Definition nineOnes : Json.t :=
  Json.Obj [("initialState"%string, Json.Arr (replicate 9 (Json.Num 1)))].

Definition blankLevel : Json.t :=
  Json.Obj [("initialState"%string, Json.Arr (replicate 9 (Json.Bool false)))].

Definition sampleReadings : Readings :=
  mkReadings (fun _ => 1700000000000%Z) (fun _ => "k3j9x2m1q"%string).

Definition emptyPanel : State := mkState [] "" None.

(** A document of three elements: a named level that also carries an
    [id], an element with eight cells only, and a level without a name. *)
Definition namedLevel : Json.t :=
  Json.Obj [ ("id"%string, Json.Str "mine");
             ("name"%string, Json.Str "Alpha");
             ("initialState"%string, Json.Arr (replicate 9 (Json.Bool true))) ].

Definition shortLevel : Json.t :=
  Json.Obj [("initialState"%string, Json.Arr (replicate 8 (Json.Bool false)))].

Definition mixedDocument : Json.t :=
  Json.Arr [namedLevel; shortLevel; blankLevel].

(** Readings that differ from one level to the next. *)
Definition steppedReadings : Readings :=
  mkReadings (fun k => (1700000000000 + Z.of_nat k)%Z)
             (fun k => if k =? 0 then "aaa"%string else "bbb"%string).

(** A panel that already holds one level made in the editor. *)
Definition onePanel : State :=
  mkState [mkLevel "level-1699999999999" (Json.Str "One")
             (replicate 9 (Json.Bool false))] "" None.

End Documents.

(** *** Sequences of clicks *)

Module Solving.

Import GameLogic.

(** The grid after the clicks, one [toggleGridCell] per click. *)
Fixpoint clickAll (grid : list CellState) (clicks : list nat)
  : option (list CellState) :=
  match clicks with
  | [] => Some grid
  | index :: clicks => grid' ← toggleGridCell grid index; clickAll grid' clicks
  end.

(** The sublists of a list, each in the list's order. *)
Fixpoint sublists (l : list nat) : list (list nat) :=
  match l with
  | [] => [[]]
  | x :: l => sublists l ++ (cons x <$> sublists l)
  end.

(** The clicks solve the grid. *)
Definition solves (grid : list CellState) (clicks : list nat) : bool :=
  match clickAll grid clicks with
  | Some grid' => isLevelSolved grid'
  | None => false
  end.

(** Some set of cells of the board, each clicked once, solves the grid. *)
Definition solvable (grid : list CellState) : bool :=
  existsb (solves grid) (sublists (seq 0 TOTAL_CELLS)).

(** The grids of [n] cells. *)
Fixpoint gridsOf (n : nat) : list (list CellState) :=
  match n with
  | 0 => [[]]
  | S n => (cons false <$> gridsOf n) ++ (cons true <$> gridsOf n)
  end.

End Solving.

(** *** Levels of the panel *)

Module Panel.

Import AdminPanel.

(** A level the game can load: nine cells and a name that is shown. *)
Definition wellFormed (l : AnyLevel) : bool :=
  (length (Types.initialState l) =? TOTAL_CELLS) && Json.truthy (name l).

(** No character of the string is [c]. *)
Fixpoint charFree (c : ascii) (s : string) : Prop :=
  match s with
  | EmptyString => True
  | String d s => d ≠ c ∧ charFree c s
  end.

End Panel.

(** *** What runs keep *)

Module Kept.

Import App.






(** The clicks of a list of cells, with the clock reading of each. *)
Definition clicksAt (clicks : list (nat * Z)) : list Event :=
  (fun c => CellClick c.1 c.2) <$> clicks.

End Kept.

(** *** Operations of the panel *)

Module PanelOps.

Import AdminPanel Editor.

(** A parsed document that is neither an array nor an object nor
    [null]. *)
Definition isScalar (v : Json.t) : bool :=
  match v with
  | Json.Bool _ | Json.Num _ | Json.Str _ => true
  | _ => false
  end.

(** What the user can do to the level list. *)
Inductive Op : Type :=
| Add (now : Z) (editorGrid : list CellState)
| Remove (id : string)
| Clear
| Import (R : Readings) (parsed : option Json.t).

Definition perform (op : Op) (s : State) : State :=
  match op with
  | Add now editorGrid => addLevelFromEditor now editorGrid s
  | Remove id => removeLevel id s
  | Clear => clearLevels s
  | Import R parsed => (parseAndLoadLevels R parsed s).1
  end.

(** The panel after the operations, the first of the list first. *)
Definition performAll (ops : list Op) (s : State) : State :=
  foldl (fun s op => perform op s) s ops.

(** The editor only ever holds nine cells. *)
Definition fromEditor (op : Op) : Prop :=
  match op with
  | Add _ editorGrid => length editorGrid = TOTAL_CELLS
  | _ => True
  end.

End PanelOps.

(** *** The clock face *)

Module Clock.

(** The two decimal digits of a number below 100. *)
Definition twoDigits (n : Z) : string :=
  String (pretty_N_char (Z.to_N (n / 10)))
    (String (pretty_N_char (Z.to_N (n `mod` 10))) EmptyString).

(** A decimal numeral as [toString] writes it for a whole number that is
    not negative: not empty, without the character [c], and with a
    leading zero only when it is ["0"] itself. *)
Definition numeral (c : ascii) (s : string) : Prop :=
  Panel.charFree c s
  ∧ s ≠ EmptyString
  ∧ (∀ rest, s = String "0" rest → rest = EmptyString).

End Clock.

(* ================================================================= *)
(** * Properties *)

(** ** The grid engine *)

Module GameLogicFacts.

Import JsArray GameLogic.

(** A grid of the board's size is nine cells. *)
Lemma grid_cells (grid : list CellState) :
  length grid = TOTAL_CELLS →
  ∃ a b c d e f g h i, grid = [a; b; c; d; e; f; g; h; i].
Proof.
  intros Hlen.
  do 9 (destruct grid as [|? grid]; [discriminate Hlen|]).
  destruct grid; [|discriminate Hlen].
  by repeat eexists.
Qed.

Lemma index_cases (index : nat) :
  index < TOTAL_CELLS →
  index ∈ [0; 1; 2; 3; 4; 5; 6; 7; 8].
Proof.
  unfold TOTAL_CELLS, GRID_SIZE. intros Hlt.
  do 9 (destruct index as [|index]; [set_solver|]). simpl in Hlt. lia.
Qed.

Ltac each_index H :=
  apply index_cases in H;
  repeat (apply elem_of_cons in H as [-> | H]);
  [ .. | by apply elem_of_nil in H ].

Ltac nine_cells grid Hlen :=
  destruct (grid_cells grid Hlen) as (?&?&?&?&?&?&?&?&?&->).

(** On the board, the toggle always yields a grid of the same size. *)
Lemma toggleGridCell_total (grid : list CellState) (index : nat) :
  length grid = TOTAL_CELLS → index < TOTAL_CELLS →
  ∃ grid', toggleGridCell grid index = Some grid'
           ∧ length grid' = TOTAL_CELLS.
Proof.
  intros Hlen Hidx. nine_cells grid Hlen.
  each_index Hidx; eexists; (split; [reflexivity|reflexivity]).
Qed.

Lemma isLevelSolved_spec (grid : list CellState) :
  isLevelSolved grid = true ↔ ∀ cell, cell ∈ grid → cell = true.
Proof.
  unfold isLevelSolved. rewrite forallb_forall. split.
  - intros H cell Hin. apply list_elem_of_In, H in Hin.
    by apply bool_decide_eq_true in Hin.
  - intros H cell Hin. apply bool_decide_eq_true, H. by apply list_elem_of_In.
Qed.

Lemma cell_inverted (b : CellState) : bool_decide (b = negb b) = false.
Proof. by destruct b. Qed.

Lemma cell_kept (b : CellState) : bool_decide (b = b) = true.
Proof. by apply bool_decide_eq_true. Qed.

Lemma createEmptyGrid_not_solved : isLevelSolved createEmptyGrid = false.
Proof. reflexivity. Qed.

Lemma all_lit_solved : isLevelSolved (replicate TOTAL_CELLS true) = true.
Proof. reflexivity. Qed.

(** The vocabulary on the 3x3 board: the corners, the centre, and the
    plus around a corner, an edge cell and the centre. *)
Example board_corners : List.filter Plus.isCorner (seq 0 9) = [0; 2; 6; 8].
Proof. reflexivity. Qed.

Example board_interior : List.filter Plus.isInterior (seq 0 9) = [4].
Proof. reflexivity. Qed.

Example plus_of_corner : List.filter (Plus.inPlus 0) (seq 0 9) = [0; 1; 3].
Proof. reflexivity. Qed.

Example plus_of_edge : List.filter (Plus.inPlus 5) (seq 0 9) = [2; 4; 5; 8].
Proof. reflexivity. Qed.

Example plus_of_centre : List.filter (Plus.inPlus 4) (seq 0 9) = [1; 3; 4; 5; 7].
Proof. reflexivity. Qed.

Example diagonals_of_centre : List.filter (Plus.diagonal 4) (seq 0 9) = [0; 2; 6; 8].
Proof. reflexivity. Qed.

End GameLogicFacts.

Module StoreFacts.

Import JsArray Store.

Lemma flipAt_insert (l : loc) (i : nat) (a : slots) (h : heap) :
  flipAt l i (<[l := a]> h) = Some (<[l := flip i a]> h).
Proof.
  unfold flipAt. rewrite lookup_insert_eq. cbn [mbind option_bind].
  by rewrite insert_insert_eq.
Qed.

Lemma freshLoc_unused (h : heap) : h !! freshLoc h = None.
Proof. unfold freshLoc. apply not_elem_of_dom, is_fresh. Qed.

Lemma guarded_flipAt_insert (c : bool) (l : loc) (i : nat)
    (a : slots) (h : heap) :
  (if c then flipAt l i (<[l := a]> h) else Some (<[l := a]> h)) =
  Some (<[l := if c then flip i a else a]> h).
Proof. destruct c; [apply flipAt_insert | done]. Qed.

Lemma toCells_ofCells (a : slots) (cells : list CellState) :
  toCells a = Some cells → a = ofCells cells.
Proof.
  revert cells. induction a as [|[cell|] a IH]; intros cells; cbn.
  - by intros [= <-].
  - destruct (toCells a) as [rest|]; [|done]. cbn. intros [= <-].
    by rewrite (IH rest eq_refl).
  - done.
Qed.

(** The store version allocates one array, writes only to it, and leaves
    in it what the function on contents computes. *)
Lemma toggleGridCell_store (h : heap) (g : loc) (grid grid' : list CellState)
    (index : nat) :
  h !! g = Some (ofCells grid) →
  GameLogic.toggleGridCell grid index = Some grid' →
  Store.toggleGridCell h g index =
    Some (freshLoc h, <[freshLoc h := ofCells grid']> h).
Proof.
  intros Hg Htog. unfold GameLogic.toggleGridCell in Htog.
  apply toCells_ofCells in Htog. rewrite <-Htog.
  unfold Store.toggleGridCell, spread.
  rewrite Hg. cbn [mbind option_bind].
  rewrite flipAt_insert. cbn [mbind option_bind].
  do 4 (rewrite guarded_flipAt_insert; cbn [mbind option_bind]).
  reflexivity.
Qed.

End StoreFacts.

Module GridClaims.

Import JsArray GameLogic GameLogicFacts StoreFacts.

(** C2.  For a grid of nine cells held at reference [g] and an index on
    the board, [toggleGridCell] returns a reference to a newly allocated
    array and leaves every array that existed before, the input among
    them, as it was; in the new grid the cell at the index and each
    orthogonal neighbour on the board are inverted and every other cell
    is kept, diagonal neighbours in particular; the number of changed
    cells is 3 at a corner, 5 at the centre and 4 at the other edge
    cells. *)
Theorem toggle_plus_pattern (h : Store.heap) (g : Store.loc)
    (grid : list CellState) (index : nat) :
  h !! g = Some (ofCells grid) →
  length grid = TOTAL_CELLS →
  index < TOTAL_CELLS →
  ∃ (g' : Store.loc) (h' : Store.heap) (grid' : list CellState),
    Store.toggleGridCell h g index = Some (g', h')
    ∧ toggleGridCell grid index = Some grid'
    ∧ h' !! g' = Some (ofCells grid')
    ∧ h !! g' = None
    ∧ g' ≠ g
    ∧ (∀ l, l ≠ g' → h' !! l = h !! l)
    ∧ h' !! g = Some (ofCells grid)
    ∧ length grid' = TOTAL_CELLS
    ∧ (∀ j b, grid !! j = Some b →
         grid' !! j = Some (if Plus.inPlus index j then negb b else b))
    ∧ (∀ j, Plus.diagonal index j = true → grid' !! j = grid !! j)
    ∧ Plus.changedCells grid grid' =
        (if Plus.isCorner index then 3
         else if Plus.isInterior index then 5 else 4).
Proof.
  intros Hg Hlen Hidx.
  destruct (toggleGridCell_total grid index Hlen Hidx) as (grid' & Htog & Hlen').
  pose proof (freshLoc_unused h) as Hfresh.
  assert (Hne : Store.freshLoc h ≠ g)
    by (intros Heq; rewrite Heq, Hg in Hfresh; discriminate Hfresh).
  exists (Store.freshLoc h), (<[Store.freshLoc h := ofCells grid']> h), grid'.
  split; [by apply (toggleGridCell_store h g grid grid' index)|].
  split; [done|].
  split; [apply lookup_insert_eq|].
  split; [done|]. split; [done|].
  split; [by intros l Hl; apply lookup_insert_ne|].
  split; [by rewrite lookup_insert_ne|].
  split; [done|].
  clear Hg Hfresh Hne Hlen'. nine_cells grid Hlen.
  each_index Hidx; injection Htog as <-;
    (split;
     [ intros j b Hj;
       do 9 (destruct j as [|j]; [by injection Hj as ->|]); discriminate Hj
     | split;
       [ intros j Hj;
         do 9 (destruct j as [|j]; [first [discriminate Hj | reflexivity]|]);
         reflexivity
       | cbn -[bool_decide]; by rewrite ?cell_inverted, ?cell_kept ] ]).
Qed.

(** The centre of the first sample level, held at location 0. *)
Lemma toggle_plus_pattern_at_centre :
  ∃ (g' : Store.loc) (h' : Store.heap) (grid' : list CellState),
    Store.toggleGridCell
      {[ 0 := ofCells (Types.initialState Runs.levelOne) ]} 0 4
      = Some (g', h')
    ∧ toggleGridCell (Types.initialState Runs.levelOne) 4 = Some grid'
    ∧ isLevelSolved grid' = true
    ∧ Plus.changedCells (Types.initialState Runs.levelOne) grid' = 5.
Proof.
  destruct (toggle_plus_pattern
              {[ 0 := ofCells (Types.initialState Runs.levelOne) ]} 0
              (Types.initialState Runs.levelOne) 4)
    as (g' & h' & grid' & Hstore & Hpure & _ & _ & _ & _ & _ & _ & _ & _ & Hn).
  - apply lookup_singleton_eq.
  - reflexivity.
  - unfold TOTAL_CELLS, GRID_SIZE. lia.
  - exists g', h', grid'. split; [done|]. split; [done|].
    split; [|done]. by injection Hpure as <-.
Defined.

(** C3.  On a grid of nine cells, toggling twice at the same index of
    the board gives back the original grid. *)
Theorem toggle_twice (grid : list CellState) (index : nat) :
  length grid = TOTAL_CELLS →
  index < TOTAL_CELLS →
  toggleGridCell grid index ≫= (fun grid' => toggleGridCell grid' index)
  = Some grid.
Proof.
  intros Hlen Hidx. nine_cells grid Hlen.
  each_index Hidx; cbn; by rewrite ?negb_involutive.
Qed.

Lemma toggle_twice_at_centre :
  toggleGridCell (Types.initialState Runs.levelOne) 4
    ≫= (fun grid' => toggleGridCell grid' 4)
  = Some (Types.initialState Runs.levelOne).
Proof.
  apply toggle_twice; [reflexivity | unfold TOTAL_CELLS, GRID_SIZE; lia].
Defined.

End GridClaims.

(* ================================================================= *)
(** ** The stats aggregator *)

Module Totals.

Import App Sums.

(** The [reduce] of [totalStats], from any accumulator. *)
Lemma reduce_from (history : list LevelRecord.t) (t n : Z) :
  fold_left
    (fun acc curr =>
       mkStats (timeSeconds acc + timeSeconds (LevelRecord.stats curr))
               (steps acc + steps (LevelRecord.stats curr)))
    history (mkStats t n)
  = mkStats (t + sumSeconds history) (n + sumSteps history).
Proof.
  revert t n. induction history as [|rec history IH]; intros t n; simpl.
  - f_equal; lia.
  - rewrite IH. f_equal; lia.
Qed.

(** C9.  The totals are the sums of seconds and of steps over the
    history, to which the current level's stats are added exactly in
    PLAYING and LEVEL_COMPLETE, and not in SETUP, IDLE and
    ALL_COMPLETE. *)
Theorem totalStats_sums (history : list LevelRecord.t)
    (levelStats : GameStats) (status : GameStatus) :
  totalStats history levelStats status =
    match status with
    | PLAYING | LEVEL_COMPLETE =>
        mkStats (sumSeconds history + timeSeconds levelStats)
                (sumSteps history + steps levelStats)
    | SETUP | IDLE | ALL_COMPLETE =>
        mkStats (sumSeconds history) (sumSteps history)
    end.
Proof.
  unfold totalStats. rewrite reduce_from.
  destruct status; simpl; f_equal; lia.
Qed.

(** The specification's example: level 1 done in 10 s and 5 steps,
    level 2 in progress at 3 s and 2 steps. *)
Example totals_on_level_two :
  totalStats [LevelRecord.mk "l1" "Level 1" (mkStats 10 5)] (mkStats 3 2) PLAYING
  = mkStats 13 7.
Proof. reflexivity. Qed.

End Totals.

(* ================================================================= *)
(** ** The run controller *)

Module RunFacts.

Import GameLogic App Runs.

Lemma timerEffect_same (r : State) : timerEffect r r = r.
Proof.
  unfold timerEffect.
  by rewrite (bool_decide_eq_true_2 (status r = status r)),
    (bool_decide_eq_true_2 (startTime r = startTime r)).
Qed.

Lemma timerEffect_status (prev next : State) :
  status (timerEffect prev next) = status next.
Proof. unfold timerEffect. by repeat case_match. Qed.

Lemma timerEffect_startTime (prev next : State) :
  startTime (timerEffect prev next) = startTime next.
Proof. unfold timerEffect. by repeat case_match. Qed.

Lemma loadLevel_status (ls : list Level) (idx : nat) (s : State) :
  status (loadLevel ls idx s) = status s.
Proof. unfold loadLevel. by destruct (ls !! idx). Qed.

(** Nothing in [quitToSetup] touches the scheduled callbacks: the
    clean-up reaches the interval only. *)
Lemma quitToSetup_keeps_timeouts (r : State) :
  pendingTimeouts (quitToSetup r) = pendingTimeouts r
  ∧ timerIntervalRef (quitToSetup r) = None
  ∧ status (quitToSetup r) = SETUP.
Proof. done. Qed.

(** The callback sets the phase whatever the phase is. *)
Lemma autoAdvance_status (now : Z) (c : AutoAdvance) (s : State) :
  status (autoAdvance now c s) = PLAYING
  ∨ status (autoAdvance now c s) = ALL_COMPLETE.
Proof.
  unfold autoAdvance. destruct (_ <? _); [left | right]; done.
Qed.

(** *** In PLAYING the start time is set

    Along any run whose clock readings are not the epoch itself, a state
    in PLAYING has a truthy [startTime]. *)

Lemma handleCellClick_phase (now : Z) (index : nat) (r s : State) :
  handleCellClick now index r = Some s →
  (status s = status r ∨ status s = LEVEL_COMPLETE)
  ∧ startTime s = startTime r.
Proof.
  unfold handleCellClick, handleLevelComplete.
  destruct (negb _); [by intros [= <-]; split; [left|]|].
  destruct (toggleGridCell _ _) as [newGrid|]; [|done]. cbn.
  destruct (isLevelSolved newGrid); [|by intros [= <-]; split; [left|]].
  destruct (levels r !! currentLevelIdx r); [|done]. cbn.
  by intros [= <-]; split; [right|].
Qed.

Lemma step_playingTimed (r s : State) (e : Event) :
  clockOf e ≠ Some 0%Z →
  playingTimed r → step r e = Some s → playingTimed s.
Proof.
  unfold step, playingTimed. intros Hclk Hr.
  destruct (handle e r) as [s'|] eqn:Hh; [|done]. cbn. intros [= <-].
  rewrite timerEffect_status, timerEffect_startTime.
  assert (Hnz : ∀ now, clockOf e = Some now → truthy (Some now) = true).
  { intros now He. cbn. apply negb_true_iff, Z.eqb_neq. congruence. }
  destruct e; cbn in Hh.
  - injection Hh as <-. by case_bool_decide.
  - injection Hh as <-. destruct (_ && _); [|done].
    unfold startGame. destruct (_ =? _); [done|].
    by rewrite loadLevel_status.
  - injection Hh as <-. case_bool_decide; [|done]. intros _. by apply Hnz.
  - destruct (_ && _) eqn:Hg; [|by injection Hh as <-].
    apply handleCellClick_phase in Hh as [[Hst | Hst] Htm];
      rewrite Hst, Htm; [done | discriminate].
  - injection Hh as <-. by case_bool_decide.
  - injection Hh as <-. by destruct (_ && _).
  - injection Hh as <-. by destruct (_ && _).
  - injection Hh as <-. case_bool_decide; [done|done].
  - injection Hh as <-. unfold intervalTick. by destruct (timerIntervalRef r).
  - destruct (pendingTimeouts r) as [|c rest]; injection Hh as <-; [done|].
    unfold autoAdvance. destruct (_ <? _); [|done]. intros _. by apply Hnz.
Qed.

Lemma run_playingTimed (es : list Event) (r s : State) :
  clocksSet es → playingTimed r → run r es = Some s → playingTimed s.
Proof.
  revert r. induction es as [|e es IH]; intros r Hclk Hr; cbn.
  - by intros [= <-].
  - apply Forall_cons in Hclk as [He Hes].
    destruct (step r e) as [r'|] eqn:Hstep; [|done]. cbn.
    destruct (renders r'); [|done].
    eapply IH; [done|]. by eapply step_playingTimed.
Qed.

(** The specification's walk through a competition of two levels: IDLE
    after the start, PLAYING after the reveal, LEVEL_COMPLETE with one
    record after the first win, PLAYING on level 1 after the delay, and
    ALL_COMPLETE with two records after the second win and delay. *)
Example two_level_competition :
  let phaseAfter es :=
    (fun s => (status s, currentLevelIdx s, length (history s)))
      <$> run initialState es in
  let start := [AdminSetLevels [levelOne; levelTwo]; StartCompetition] in
  let first := start ++ [StartChallenge 1000; CellClick 4 3000] in
  let second :=
    first ++ [TimeoutFires 4000; CellClick 0 5000; CellClick 2 6000;
              CellClick 4 7000; CellClick 6 8000; CellClick 8 9000] in
  phaseAfter start = Some (IDLE, 0, 0)
  ∧ phaseAfter (start ++ [StartChallenge 1000]) = Some (PLAYING, 0, 0)
  ∧ phaseAfter first = Some (LEVEL_COMPLETE, 0, 1)
  ∧ phaseAfter (first ++ [TimeoutFires 4000]) = Some (PLAYING, 1, 1)
  ∧ phaseAfter second = Some (LEVEL_COMPLETE, 1, 2)
  ∧ phaseAfter (second ++ [TimeoutFires 10000]) = Some (ALL_COMPLETE, 1, 2).
Proof. repeat split; vm_compute; reflexivity. Qed.

Lemma reachable_playing_startTime (es : list Event) (s : State) :
  clocksSet es → run initialState es = Some s → status s = PLAYING →
  ∃ t0, startTime s = Some t0 ∧ t0 ≠ 0%Z.
Proof.
  intros Hclk Hrun Hst.
  assert (Ht : truthy (startTime s) = true).
  { eapply run_playingTimed; [done| |done|done]. by intros ?. }
  destruct (startTime s) as [t0|]; [|done]. exists t0. split; [done|].
  cbn in Ht. by apply negb_true_iff, Z.eqb_neq in Ht.
Qed.

End RunFacts.

Module RunClaims.

Import GameLogic App Runs RunFacts.

(** C8.  A toggle received in a phase other than PLAYING changes
    nothing: the handler returns, without an error, the state it was
    given (grid, stats and step count, history and phase included), and
    so does the whole event. *)
Theorem toggle_outside_playing (now : Z) (index : nat) (r : State) :
  status r ≠ PLAYING →
  handleCellClick now index r = Some r
  ∧ step r (CellClick index now) = Some r.
Proof.
  intros Hst. unfold step, handle, handleCellClick.
  rewrite (bool_decide_eq_false_2 _ Hst). cbn.
  by rewrite timerEffect_same.
Qed.

(** A click on a cell of the mounted, not yet started component. *)
Lemma toggle_in_setup :
  handleCellClick 5000 4 initialState = Some initialState
  ∧ step initialState (CellClick 4 5000) = Some initialState.
Proof. apply toggle_outside_playing. discriminate. Defined.

(** C7.  In PLAYING, with the start time set and the current level in
    the list, a toggle whose result is solved ends in LEVEL_COMPLETE with
    the solved grid; the final stats have one step more than before and
    the whole seconds between the stored start time and the clock at
    completion, whatever seconds the tick had last written; a record of
    the current level with these stats is appended to the history; and
    one auto-advance callback is scheduled. *)
Theorem winning_toggle_completes (now t0 : Z) (index : nat) (r : State)
    (lvl : Level) (newGrid : list CellState) :
  status r = PLAYING →
  startTime r = Some t0 →
  t0 ≠ 0%Z →
  levels r !! currentLevelIdx r = Some lvl →
  toggleGridCell (grid r) index = Some newGrid →
  isLevelSolved newGrid = true →
  ∃ s,
    handleCellClick now index r = Some s
    ∧ status s = LEVEL_COMPLETE
    ∧ grid s = newGrid
    ∧ steps (levelStats s) = (steps (levelStats r) + 1)%Z
    ∧ timeSeconds (levelStats s) = ((now - t0) / 1000)%Z
    ∧ history s =
        history r ++ [LevelRecord.mk (id lvl) (name lvl) (levelStats s)]
    ∧ pendingTimeouts s =
        pendingTimeouts r ++ [mkAutoAdvance (currentLevelIdx r) (levels r)].
Proof.
  intros Hst Htm Hnz Hlvl Htog Hsolved.
  unfold handleCellClick, handleLevelComplete.
  rewrite (bool_decide_eq_true_2 _ Hst), Htog, Hlvl, Htm.
  cbn [negb mbind option_bind truthy default]. rewrite Hsolved.
  apply Z.eqb_neq in Hnz. rewrite Hnz.
  eexists. split; [reflexivity|]. by cbn.
Qed.

(** The winning click on the first sample level, two seconds after its
    start: the record holds 2 s although the tick had written 1 s. *)
Lemma winning_toggle_on_level_one :
  ∃ s,
    handleCellClick 3000 4 playingOne = Some s
    ∧ status s = LEVEL_COMPLETE
    ∧ levelStats s = mkStats 2 1
    ∧ history s = [LevelRecord.mk "level-1" "One" (mkStats 2 1)].
Proof.
  destruct (winning_toggle_completes 3000 1000 4 playingOne levelOne
              (replicate 9 true))
    as (s & Hs & Hst & _ & Hsteps & Hsec & Hhist & _);
    [reflexivity | reflexivity | discriminate | reflexivity
    | reflexivity | reflexivity |].
  exists s. split; [done|]. split; [done|].
  assert (Hstats : levelStats s = mkStats 2 1)
    by (destruct (levelStats s); cbn in Hsteps, Hsec; by subst).
  split; [done|]. by rewrite Hhist, Hstats.
Defined.

(** *** A quit while the auto-advance is pending *)

(** C1 (what the code does).  After [quitWhilePending] the phase is
    SETUP and the callback is still scheduled; when it runs, one second
    after the win, the phase becomes PLAYING, the level index moves from
    0 to 1, the grid is replaced by the second level's, the stats are
    reset and a start time is set. *)
Theorem quit_leaves_auto_advance_armed :
  ∃ q s,
    run initialState quitWhilePending = Some q
    ∧ status q = SETUP
    ∧ pendingTimeouts q = [mkAutoAdvance 0 [levelOne; levelTwo]]
    ∧ step q (TimeoutFires 4000) = Some s
    ∧ status s = PLAYING
    ∧ (currentLevelIdx q, currentLevelIdx s) = (0, 1)
    ∧ grid q ≠ grid s
    ∧ grid s = Types.initialState levelTwo
    ∧ (levelStats q, levelStats s) = (mkStats 2 1, mkStats 0 0)
    ∧ (startTime q, startTime s) = (None, Some 4000%Z).
Proof.
  eexists _, _.
  split; [vm_compute; reflexivity|].
  split; [reflexivity|]. split; [reflexivity|].
  split; [vm_compute; reflexivity|].
  repeat split; done.
Qed.

(** The same for any state: once in SETUP with a callback pending, its
    firing leaves SETUP. *)
Lemma stale_auto_advance_leaves_setup (now : Z) (q s : State) :
  status q = SETUP → pendingTimeouts q ≠ [] →
  step q (TimeoutFires now) = Some s →
  status s ≠ SETUP.
Proof.
  unfold step, handle. intros Hq Hp.
  destruct (pendingTimeouts q) as [|c rest]; [done|]. cbn. intros [= <-].
  rewrite timerEffect_status.
  by destruct (autoAdvance_status now c (setPendingTimeouts rest q)) as [-> | ->].
Qed.

End RunClaims.

(* ================================================================= *)
(** ** Identifiers of imported levels *)

Module IdFacts.

Import AdminPanel Documents.

(** Two texts that agree and whose heads hold no separator are cut at
    the same place by their first separator. *)
Lemma cut_at_dash (s1 s2 x y : string) :
  dashFree s1 → dashFree s2 →
  s1 +:+ String "-" x = s2 +:+ String "-" y →
  s1 = s2 ∧ x = y.
Proof.
  revert s2. induction s1 as [|c s1 IH]; intros [|d s2]; cbn.
  - by intros _ _ [= ->].
  - by intros _ [Hd _] [= <- _].
  - by intros [Hc _] _ [= -> _].
  - intros [_ H1] [_ H2] [= -> Heq].
    by destruct (IH s2 H1 H2 Heq) as [-> ->].
Qed.

Lemma digit_not_dash (x : N) : pretty_N_char x ≠ "-"%char.
Proof. unfold pretty_N_char. by repeat case_match. Qed.

Lemma pretty_N_go_dashFree (x : N) (s : string) :
  dashFree s → dashFree (pretty_N_go x s).
Proof.
  revert s. induction (N.lt_wf_0 x) as [x _ IH]. intros s Hs.
  destruct (decide (x = 0%N)) as [-> | Hx]; [by rewrite pretty_N_go_0|].
  rewrite pretty_N_go_step by lia.
  apply IH; [apply N.div_lt; lia|].
  split; [apply digit_not_dash | done].
Qed.

Lemma pretty_N_dashFree (x : N) : dashFree (pretty x).
Proof.
  unfold pretty, pretty_N. case_decide; [by cbn|].
  by apply pretty_N_go_dashFree.
Qed.

Lemma pretty_nat_dashFree (n : nat) : dashFree (pretty n).
Proof. apply pretty_N_dashFree. Qed.

Lemma pretty_Z_dashFree (z : Z) : (0 ≤ z)%Z → dashFree (pretty z).
Proof.
  destruct z as [|p|p]; [by cbn | intros _ | lia].
  apply (pretty_N_dashFree (Npos p)).
Qed.

(** An identifier built by the import determines its timestamp, its
    sequence index and its suffix. *)
Lemma importId_inj (t t' : Z) (i i' : nat) (r r' : string) :
  (0 ≤ t)%Z → (0 ≤ t')%Z →
  importId t i r = importId t' i' r' →
  t = t' ∧ i = i' ∧ r = r'.
Proof.
  intros Ht Ht'. unfold importId. cbn. intros [= Heq].
  apply cut_at_dash in Heq as [Hts Heq]; [|by apply pretty_Z_dashFree..].
  apply cut_at_dash in Heq as [His Heq]; [|by apply pretty_nat_dashFree..].
  apply (inj pretty) in Hts. apply (inj pretty) in His. done.
Qed.

(** It is never an identifier of the visual editor. *)
Lemma importId_not_editor (t t' : Z) (i : nat) (r : string) :
  importId t i r ≠ "level-" +:+ pretty t'.
Proof. unfold importId. cbn. discriminate. Qed.

End IdFacts.

(* ================================================================= *)
(** ** The level repository *)

Module ImportFacts.

Import AdminPanel Documents.

Lemma isValidLevel_hasNineCells (l : Json.t) :
  isValidLevel l = inr true ↔ hasNineCells l = true.
Proof.
  unfold isValidLevel, hasNineCells, getProp.
  destruct l as [| | | | |fields]; try (split; discriminate).
  destruct (Json.getField "initialState" fields) as [[| | | |cells|]|];
    cbn; try (split; discriminate).
  - destruct b; split; discriminate.
  - destruct (negb _); split; discriminate.
  - destruct (negb _); split; discriminate.
  - split; [by intros [= ->] | by intros ->].
Qed.

Lemma accepts_hasNineCells (l : Json.t) : accepts l = hasNineCells l.
Proof.
  apply eq_true_iff_eq. rewrite <-isValidLevel_hasNineCells.
  unfold accepts. destruct (isValidLevel l) as [e|[|]]; split; congruence.
Qed.

Lemma isValidLevel_throws (l : Json.t) (e : ImportError) :
  isValidLevel l = inl e ↔ l = Json.Null ∧ e = TypeError.
Proof.
  unfold isValidLevel, getProp. split.
  - destruct l as [| | | | |fields]; try discriminate; [by intros [= <-]|].
    by destruct (Json.getField "initialState" fields).
  - by intros [-> ->].
Qed.

Lemma isValidLevel_eq (l : Json.t) :
  isValidLevel l =
    if Json.isNull l then inl TypeError else inr (accepts l).
Proof.
  unfold accepts. destruct l as [| | | | |fields]; try done.
  unfold isValidLevel. cbn.
  destruct (Json.getField "initialState" fields) as [v|]; [|done].
  by destruct (_ && _ && _).
Qed.

(** The filter throws exactly when an element is [null]; otherwise it
    returns the accepted elements in their order. *)
Lemma filterValid_eq (elems : list Json.t) :
  filterValid elems =
    if existsb Json.isNull elems then inl TypeError
    else inr (List.filter accepts elems).
Proof.
  induction elems as [|l elems IH]; [done|]. cbn.
  rewrite isValidLevel_eq, IH.
  destruct (Json.isNull l); [done|]. cbn.
  destruct (existsb Json.isNull elems); [done|].
  by destruct (accepts l).
Qed.

(** A bare object or [null] is wrapped; what is then not an array is
    refused. *)
Lemma parseAndLoadLevels_elements (R : Readings) (parsed : Json.t) (s : State) :
  Json.typeofObject parsed = true →
  parseAndLoadLevels R (Some parsed) s =
  parseAndLoadLevels R (Some (Json.Arr (elementsOf parsed))) s.
Proof. by destruct parsed. Qed.

(** The import, in terms of the document's elements. *)
Lemma parseAndLoadLevels_array (R : Readings) (elems : list Json.t) (s : State) :
  parseAndLoadLevels R (Some (Json.Arr elems)) s =
    if existsb Json.isNull elems then (s, ImportFailed TypeError)
    else
      let validLevels := List.filter accepts elems in
      match validLevels with
      | [] => (s, ImportFailed NoValidLevels)
      | _ => (mkState (levels s ++ imap (cleanLevel R) validLevels) ""
                      (exportData s),
              Imported (length validLevels))
      end.
Proof.
  cbn. rewrite filterValid_eq.
  destruct (existsb Json.isNull elems); [done|].
  destruct (List.filter accepts elems); [done|]. cbn.
  by rewrite length_imap.
Qed.

Lemma hasNineCells_inv (l : Json.t) :
  hasNineCells l = true →
  ∃ fields cells,
    l = Json.Obj fields
    ∧ Json.getField "initialState" fields = Some (Json.Arr cells)
    ∧ length cells = TOTAL_CELLS.
Proof.
  unfold hasNineCells. destruct l as [| | | | |fields]; try done.
  destruct (Json.getField _ fields) as [[| | | |cells|]|] eqn:Hf; try done.
  intros Hlen%Nat.eqb_eq. by exists fields, cells.
Qed.

Lemma filter_accepts (elems : list Json.t) :
  List.filter accepts elems = List.filter hasNineCells elems.
Proof. apply filter_ext. intros l. apply accepts_hasNineCells. Qed.

End ImportFacts.

Module ImportClaims.

Import AdminPanel Documents ImportFacts IdFacts.

Lemma getField_withoutId (k : string) (fields : list (string * Json.t)) :
  k ≠ "id"%string →
  Json.getField k (withoutId fields) = Json.getField k fields.
Proof.
  intros Hk. unfold withoutId.
  induction fields as [|[k' v] fields IH]; [done|].
  cbn [List.filter fst]. case_bool_decide as Hid;
    cbn [negb Json.getField]; rewrite IH; [|done].
  destruct (Json.getField k fields); [done|].
  by rewrite bool_decide_eq_false_2 by congruence.
Qed.

(** C4 (what the code does).  The candidate
    [{"initialState":[1,1,1,1,1,1,1,1,1]}] is no sequence of nine
    booleans, yet the filter accepts it, and the import stores a level
    whose nine cells are the number 1. *)
Theorem nine_numbers_imported :
  hasNineBooleans nineOnes = false
  ∧ isValidLevel nineOnes = inr true
  ∧ parseAndLoadLevels sampleReadings (Some nineOnes) emptyPanel
    = (mkState [mkLevel "import-1700000000000-0-k3j9x2m1q"
                  (Json.Str "导入关卡 1")
                  [Json.Num 1; Json.Num 1; Json.Num 1; Json.Num 1; Json.Num 1;
                   Json.Num 1; Json.Num 1; Json.Num 1; Json.Num 1]]
         "" None,
       Imported 1).
Proof. repeat split; vm_compute; reflexivity. Qed.

(** The part of C4 that holds.  A candidate is accepted if and only if it
    is an object whose [initialState] is an array of exactly nine
    elements (nine booleans in particular, but the elements are not
    looked at).  For the level built from a candidate: the name is the
    generated label when [name] is absent or empty and the candidate's
    own when it is a non-empty string; the identifier is the generated
    one; and the members called [id] of the input have no influence. *)
Lemma validation_checks_length_only (R : Readings) (idx : nat) (l : Json.t) :
  (isValidLevel l = inr true ↔ hasNineCells l = true)
  ∧ (hasNineBooleans l = true → isValidLevel l = inr true)
  ∧ (nameAbsentOrEmpty l = true →
     name (cleanLevel R idx l) = Json.Str ("导入关卡 " +:+ pretty (idx + 1)))
  ∧ (∀ fields text, l = Json.Obj fields →
     Json.getField "name" fields = Some (Json.Str text) →
     text ≠ ""%string →
     name (cleanLevel R idx l) = Json.Str text)
  ∧ id (cleanLevel R idx l) = importId (dateNow R idx) idx (randomSuffix R idx)
  ∧ (∀ fields, l = Json.Obj fields →
     isValidLevel (Json.Obj (withoutId fields)) = isValidLevel l
     ∧ cleanLevel R idx (Json.Obj (withoutId fields)) = cleanLevel R idx l).
Proof.
  split; [apply isValidLevel_hasNineCells|].
  split.
  { intros Hb. apply isValidLevel_hasNineCells.
    unfold hasNineBooleans in Hb. unfold hasNineCells.
    destruct l as [| | | | |fields]; try done.
    destruct (Json.getField _ fields) as [[| | | |cells|]|]; try done.
    by apply andb_true_iff in Hb as [-> _]. }
  split.
  { unfold nameAbsentOrEmpty, cleanLevel, nameOrDefault. cbn.
    destruct (getProp l "name") as [e|[[| | |s| |]|]]; try done.
    by destruct s. }
  split.
  { intros fields text -> Hname Htext.
    unfold cleanLevel, nameOrDefault, getProp. cbn [name]. rewrite Hname.
    cbn [Json.truthy]. by rewrite bool_decide_eq_false_2. }
  split; [done|].
  intros fields ->.
  unfold cleanLevel, nameOrDefault, cellsOf, isValidLevel, getProp.
  by rewrite !getField_withoutId.
Qed.

(** *** A batch with a [null] element *)

(** C5 (what the code does).  The document [[null, L]] with [L] a valid
    level is refused as a whole, with the [TypeError] of the property
    read on [null], and nothing is appended; the same document without
    the [null] imports [L]. *)
Theorem null_element_aborts_import :
  parseAndLoadLevels sampleReadings
    (Some (Json.Arr [Json.Null; blankLevel])) emptyPanel
  = (emptyPanel, ImportFailed TypeError)
  ∧ parseAndLoadLevels sampleReadings
      (Some (Json.Arr [blankLevel])) emptyPanel
    = (mkState [cleanLevel sampleReadings 0 blankLevel] "" None, Imported 1).
Proof. split; reflexivity. Qed.

(** The part of C5 that holds.  With no accepted element the import
    fails and the panel is as before; the error is [NoValidLevels]
    unless an element is [null].  Without a [null], elements that are
    not accepted are dropped: the outcome is that of the accepted
    elements alone. *)
Lemma no_valid_level_rejected (R : Readings) (elems : list Json.t) (s : State) :
  List.filter accepts elems = [] →
  ∃ e, parseAndLoadLevels R (Some (Json.Arr elems)) s = (s, ImportFailed e)
       ∧ (existsb Json.isNull elems = false → e = NoValidLevels).
Proof.
  intros Hnone. rewrite parseAndLoadLevels_array, Hnone. cbn.
  destruct (existsb Json.isNull elems); eexists; split; done.
Qed.

Lemma invalid_elements_dropped (R : Readings) (elems : list Json.t) (s : State) :
  existsb Json.isNull elems = false →
  parseAndLoadLevels R (Some (Json.Arr elems)) s =
  parseAndLoadLevels R (Some (Json.Arr (List.filter accepts elems))) s.
Proof.
  intros Hnull. rewrite !parseAndLoadLevels_array, Hnull.
  assert (Hn : existsb Json.isNull (List.filter accepts elems) = false).
  { apply not_true_iff_false. intros (l & Hin & Hl)%existsb_exists.
    apply filter_In in Hin as [_ Hacc]. by destruct l. }
  rewrite Hn. cbn.
  assert (Hff : List.filter accepts (List.filter accepts elems)
                = List.filter accepts elems).
  { clear. induction elems as [|l elems IH]; [done|]. cbn.
    destruct (accepts l) eqn:Hl; [|done]. cbn. by rewrite Hl, IH. }
  by rewrite Hff.
Qed.

End ImportClaims.

Module AppendClaims.

Import AdminPanel Documents ImportFacts IdFacts.

Lemma imported_success (R : Readings) (parsed : Json.t) (s s' : State) (n : nat) :
  parseAndLoadLevels R (Some parsed) s = (s', Imported n) →
  Json.typeofObject parsed = true
  ∧ List.filter accepts (elementsOf parsed) ≠ []
  ∧ s' = mkState (levels s ++ imap (cleanLevel R)
                    (List.filter accepts (elementsOf parsed))) "" (exportData s)
  ∧ n = length (List.filter accepts (elementsOf parsed)).
Proof.
  intros Himp.
  assert (Hobj : Json.typeofObject parsed = true)
    by (destruct parsed; first [done | discriminate Himp]).
  rewrite parseAndLoadLevels_elements, parseAndLoadLevels_array in Himp by done.
  destruct (existsb _ _); [discriminate Himp|].
  destruct (List.filter accepts (elementsOf parsed)) as [|l valid];
    [discriminate Himp|].
  by injection Himp as <- <-.
Qed.

(** C6, as stated, fails: the same bare object imported twice, the clock
    and the random source reading the same both times, leaves two levels
    with one identifier. *)
Lemma repeated_readings_repeat_identifier :
  let once := (parseAndLoadLevels sampleReadings (Some blankLevel) emptyPanel).1 in
  let twice := parseAndLoadLevels sampleReadings (Some blankLevel) once in
  twice.2 = Imported 1
  ∧ id <$> levels twice.1
    = ["import-1700000000000-0-k3j9x2m1q"; "import-1700000000000-0-k3j9x2m1q"]%string.
Proof. split; vm_compute; reflexivity. Qed.

(** C6, amended.  A bare object is imported exactly as the collection
    holding it alone.  When the import succeeds, the level list is the
    previous list, with every entry as it was, followed by one level per
    element whose [initialState] is an array of nine elements, in the
    order of the input.  The level made from the element of index [k]
    among those has that element's nine cells, its name if truthy and
    the generated label otherwise, and the identifier built from the
    timestamp, the index [k] and the random suffix read for it.  These
    identifiers are pairwise distinct, none is an identifier of the
    visual editor, and each determines its timestamp, index and suffix;
    so the identifiers of the whole list stay distinct exactly as long as
    no earlier level was given the same three, which the clock and the
    random source make unlikely but do not exclude. *)
Theorem import_appends_fresh_levels (R : Readings) (parsed : Json.t)
    (s s' : State) (n : nat) :
  (∀ k, 0 ≤ dateNow R k)%Z →
  parseAndLoadLevels R (Some parsed) s = (s', Imported n) →
  let accepted := List.filter hasNineCells (elementsOf parsed) in
  ∃ cleaned,
    (∀ fields s0,
       parseAndLoadLevels R (Some (Json.Obj fields)) s0 =
       parseAndLoadLevels R (Some (Json.Arr [Json.Obj fields])) s0)
    ∧ parseAndLoadLevels R (Some (Json.Arr (elementsOf parsed))) s = (s', Imported n)
    ∧ levels s' = levels s ++ cleaned
    ∧ length cleaned = length accepted
    ∧ n = length accepted
    ∧ 0 < n
    ∧ (∀ j old, levels s !! j = Some old → levels s' !! j = Some old)
    ∧ (∀ k l, accepted !! k = Some l →
         ∃ fields cells,
           l = Json.Obj fields
           ∧ Json.getField "initialState" fields = Some (Json.Arr cells)
           ∧ length cells = TOTAL_CELLS
           ∧ levels s' !! (length (levels s) + k) =
               Some (mkLevel
                       (importId (dateNow R k) k (randomSuffix R k))
                       (match Json.getField "name" fields with
                        | Some v =>
                            if Json.truthy v then v
                            else Json.Str ("导入关卡 " +:+ pretty (k + 1))
                        | None => Json.Str ("导入关卡 " +:+ pretty (k + 1))
                        end)
                       cells))
    ∧ NoDup (id <$> cleaned)
    ∧ (∀ k c t i r, cleaned !! k = Some c → (0 ≤ t)%Z →
         id c = importId t i r →
         t = dateNow R k ∧ i = k ∧ r = randomSuffix R k)
    ∧ (∀ c (t : Z), c ∈ cleaned → id c ≠ "level-" +:+ pretty t)
    ∧ (NoDup (id <$> levels s) →
       (∀ old k, old ∈ levels s → k < n →
          id old ≠ importId (dateNow R k) k (randomSuffix R k)) →
       NoDup (id <$> levels s')).
Proof.
  intros Hclk Himp accepted.
  destruct (imported_success R parsed s s' n Himp) as (Hobj & Hne & -> & ->).
  rewrite filter_accepts in Hne |- *. fold accepted. fold accepted in Hne.
  set (cleaned := imap (cleanLevel R) accepted).
  assert (Hlook : ∀ k c, cleaned !! k = Some c →
            ∃ l, accepted !! k = Some l ∧ c = cleanLevel R k l).
  { intros k c. unfold cleaned. rewrite list_lookup_imap.
    destruct (accepted !! k) as [l|]; [|done]. intros [= <-]. by exists l. }
  assert (Hids : ∀ c, c ∈ cleaned →
            ∃ k, k < length accepted
                 ∧ id c = importId (dateNow R k) k (randomSuffix R k)).
  { intros c (k & Hk)%list_elem_of_lookup.
    destruct (Hlook k c Hk) as (l & Hl & ->).
    exists k. split; [by eapply lookup_lt_Some|done]. }
  assert (Hnd : NoDup (id <$> cleaned)).
  { apply NoDup_alt. intros i j x. rewrite !list_lookup_fmap.
    destruct (cleaned !! i) as [ci|] eqn:Hi; [|done].
    destruct (cleaned !! j) as [cj|] eqn:Hj; [|done].
    apply Hlook in Hi as (li & _ & ->). apply Hlook in Hj as (lj & _ & ->).
    intros Hx Hy. rewrite <-Hy in Hx. apply (inj Some) in Hx.
    change (importId (dateNow R i) i (randomSuffix R i)
            = importId (dateNow R j) j (randomSuffix R j)) in Hx.
    by apply importId_inj in Hx as (_ & -> & _). }
  exists cleaned.
  split; [done|].
  split; [by rewrite <-parseAndLoadLevels_elements, Himp, filter_accepts|].
  split; [done|].
  split; [by unfold cleaned; rewrite length_imap|].
  split; [done|].
  split; [by apply Nat.neq_0_lt_0; intros H0%nil_length_inv|].
  split; [by intros j old Hj; cbn; apply lookup_app_l_Some|].
  split.
  { intros k l Hl.
    assert (Hin : hasNineCells l = true).
    { apply list_elem_of_lookup_2, list_elem_of_In, filter_In in Hl. tauto. }
    destruct (hasNineCells_inv l Hin) as (fields & cells & -> & Hf & Hlen).
    exists fields, cells. split; [done|]. split; [done|]. split; [done|].
    cbn [levels]. rewrite lookup_app_r by lia.
    replace (length (levels s) + k - length (levels s)) with k by lia.
    unfold cleaned. rewrite list_lookup_imap, Hl. cbn [fmap option_fmap option_map].
    unfold cleanLevel, nameOrDefault, cellsOf, getProp, importedName.
    rewrite Hf. by destruct (Json.getField "name" fields). }
  split; [done|].
  split.
  { intros k c t i r (l & _ & ->)%Hlook Ht Heq.
    change (importId (dateNow R k) k (randomSuffix R k) = importId t i r) in Heq.
    by apply importId_inj in Heq as (-> & -> & ->). }
  split.
  { intros c t (k & _ & ->)%Hids. apply importId_not_editor. }
  intros Hold Hfresh. cbn [levels]. rewrite fmap_app.
  apply NoDup_app. split; [done|]. split; [|done].
  intros x (old & -> & Hin)%list_elem_of_fmap (c & Hc & Hcin)%list_elem_of_fmap.
  destruct (Hids c Hcin) as (k & Hk & Hid).
  apply (Hfresh old k Hin Hk). by rewrite Hc, Hid.
Qed.

(** The import of [mixedDocument] into a panel that holds one level: the
    old level stays in front, the element of eight cells is dropped, the
    two others follow in their order, the first under its own name and
    the second under the label of its index among the accepted ones. *)
Lemma import_of_mixed_document :
  parseAndLoadLevels steppedReadings (Some mixedDocument) onePanel
  = (mkState
       [ mkLevel "level-1699999999999" (Json.Str "One")
           (replicate 9 (Json.Bool false));
         mkLevel "import-1700000000000-0-aaa" (Json.Str "Alpha")
           (replicate 9 (Json.Bool true));
         mkLevel "import-1700000000001-1-bbb" (Json.Str "导入关卡 2")
           (replicate 9 (Json.Bool false)) ]
       "" None,
     Imported 2)
  ∧ NoDup
      [ "level-1699999999999"; "import-1700000000000-0-aaa";
        "import-1700000000001-1-bbb" ]%string.
Proof.
  assert (Hrun : parseAndLoadLevels steppedReadings (Some mixedDocument) onePanel
    = (mkState
         [ mkLevel "level-1699999999999" (Json.Str "One")
             (replicate 9 (Json.Bool false));
           mkLevel "import-1700000000000-0-aaa" (Json.Str "Alpha")
             (replicate 9 (Json.Bool true));
           mkLevel "import-1700000000001-1-bbb" (Json.Str "导入关卡 2")
             (replicate 9 (Json.Bool false)) ]
         "" None,
       Imported 2)) by (vm_compute; reflexivity).
  split; [exact Hrun|].
  destruct (import_appends_fresh_levels steppedReadings mixedDocument onePanel
              _ 2 ltac:(intros k; cbn; lia) Hrun)
    as (cleaned & _ & _ & _ & _ & _ & _ & _ & _ & _ & _ & _ & Hall).
  apply Hall.
  - apply NoDup_singleton.
  - intros old k ->%list_elem_of_singleton _ Heq.
    unfold importId in Heq. cbn in Heq. discriminate Heq.
Defined.

End AppendClaims.

Module ExportClaims.

Import AdminPanel Documents.

Section WithSerializer.

Variable stringify : list AnyLevel → string.

(** The handler itself has no guard: run on an empty list it would
    store the serializer's text for the empty list. *)
Lemma handleJsonExport_unguarded (s : State) :
  exportData (handleJsonExport stringify s) = Some (stringify (levels s)).
Proof. done. Qed.

(** A click that stores a document was made on a non-empty list. *)
Lemma export_needs_levels (s : State) (doc : string) :
  exportData s = None →
  exportData (clickExport stringify s) = Some doc →
  levels s ≠ [] ∧ doc = stringify (levels s).
Proof.
  unfold clickExport. destruct (levels s) as [|l ls] eqn:Hl; cbn.
  - by intros ->.
  - intros _ [= <-]. by rewrite Hl.
Qed.

(** C10.  With no level in the list, a request to export is a no-op:
    the panel's state is returned as it is, and so no serialized
    document is stored, not even that of the empty list. *)
Theorem export_of_empty_list_is_noop (s : State) :
  levels s = [] → clickExport stringify s = s.
Proof. unfold clickExport. by intros ->. Qed.

End WithSerializer.

(** The empty panel, with a serializer that would write [[]]. *)
Lemma export_of_empty_panel :
  clickExport (fun _ => "[]"%string) emptyPanel = emptyPanel.
Proof. by apply export_of_empty_list_is_noop. Defined.

End ExportClaims.

(* ================================================================= *)
(** * Further properties *)

(** ** The grid engine *)

Module GridMore.

Import JsArray GameLogic GameLogicFacts Solving.

(** X1.  On a grid of nine cells, two toggles on the board commute. *)
Theorem toggles_commute (grid : list CellState) (i j : nat) :
  length grid = TOTAL_CELLS → i < TOTAL_CELLS → j < TOTAL_CELLS →
  toggleGridCell grid i ≫= (fun g => toggleGridCell g j)
  = toggleGridCell grid j ≫= (fun g => toggleGridCell g i).
Proof.
  intros Hlen Hi Hj. nine_cells grid Hlen.
  each_index Hi; each_index Hj; reflexivity.
Qed.

Lemma toggles_commute_on_level_one :
  toggleGridCell (Types.initialState Runs.levelOne) 0
    ≫= (fun g => toggleGridCell g 4)
  = toggleGridCell (Types.initialState Runs.levelOne) 4
      ≫= (fun g => toggleGridCell g 0).
Proof.
  apply toggles_commute;
    [reflexivity | unfold TOTAL_CELLS, GRID_SIZE; lia..].
Defined.







(** Two indices off the board: at 10 the hole left at 9 is filled by the
    toggle of the left neighbour and a full array of twelve cells comes
    back; at 11 the slot 9 stays empty. *)
Example toggle_at_ten :
  toggleGridCell createEmptyGrid 10 =
    Some [false; false; false; false; false; false; false; true; false;
          true; true; true].
Proof. reflexivity. Qed.

Example toggle_at_eleven : toggleGridCell createEmptyGrid 11 = None.
Proof. reflexivity. Qed.

Lemma gridsOf_complete (n : nat) (grid : list CellState) :
  length grid = n → grid ∈ gridsOf n.
Proof.
  revert grid. induction n as [|n IH]; intros [|b grid] Hlen; try discriminate Hlen.
  - apply list_elem_of_singleton. reflexivity.
  - injection Hlen as Hlen. cbn. apply elem_of_app.
    destruct b; [right | left]; apply list_elem_of_fmap_2; by apply IH.
Qed.

Lemma sublists_sublist (l clicks : list nat) :
  clicks ∈ sublists l → clicks `sublist_of` l.
Proof.
  revert clicks. induction l as [|x l IH]; intros clicks; cbn.
  - intros ->%list_elem_of_singleton. constructor.
  - intros [Hin | (cs & -> & Hin)%list_elem_of_fmap]%elem_of_app.
    + apply sublist_cons. by apply IH.
    + apply sublist_skip. by apply IH.
Qed.

Lemma all_grids_solvable : forallb solvable (gridsOf TOTAL_CELLS) = true.
Proof. vm_compute. reflexivity. Qed.

(** X3.  Every grid of nine cells can be solved: there are clicks, on
    distinct cells of the board taken in increasing order (so nine at
    most), after which every cell is lit. *)
Theorem every_grid_solvable (grid : list CellState) :
  length grid = TOTAL_CELLS →
  ∃ clicks solved,
    clicks `sublist_of` seq 0 TOTAL_CELLS
    ∧ NoDup clicks
    ∧ Forall (fun index => index < TOTAL_CELLS) clicks
    ∧ length clicks ≤ TOTAL_CELLS
    ∧ clickAll grid clicks = Some solved
    ∧ isLevelSolved solved = true.
Proof.
  intros Hlen.
  pose proof all_grids_solvable as Hall.
  rewrite forallb_forall in Hall.
  specialize (Hall grid (proj1 (list_elem_of_In _ _) (gridsOf_complete _ _ Hlen))).
  apply existsb_exists in Hall as (clicks & Hin & Hsol).
  apply list_elem_of_In, sublists_sublist in Hin.
  unfold solves in Hsol.
  destruct (clickAll grid clicks) as [solved|] eqn:Hclicks; [|discriminate Hsol].
  exists clicks, solved. split; [done|].
  split; [by eapply sublist_NoDup; [apply NoDup_seq|]|].
  split.
  { apply Forall_forall. intros index Hidx.
    apply (elem_of_sublist _ _ _ Hidx), list_elem_of_In, in_seq in Hin. lia. }
  split; [|done].
  apply sublist_length in Hin. by rewrite length_seq in Hin.
Qed.

Lemma empty_grid_solvable :
  ∃ clicks solved,
    clicks `sublist_of` seq 0 TOTAL_CELLS
    ∧ clickAll createEmptyGrid clicks = Some solved
    ∧ isLevelSolved solved = true.
Proof.
  destruct (every_grid_solvable createEmptyGrid)
    as (clicks & solved & Hsub & _ & _ & _ & Hclicks & Hsolved);
    [reflexivity|].
  by exists clicks, solved.
Defined.

End GridMore.

(** ** The run controller *)

Module RunMore.

Import GameLogic App Runs RunFacts GameLogicFacts Solving Sums Kept.

Ltac setters :=
  cbn [setLevels setCurrentLevelIdx setGrid setStatus setShowQuitModal
       setLevelStats setHistory setStartTime setTimerIntervalRef
       setPendingTimeouts
       levels currentLevelIdx grid status showQuitModal levelStats history
       startTime timerIntervalRef pendingTimeouts andb].

Lemma run_cons (r : State) (e : Event) (es : list Event) :
  run r (e :: es) =
  step r e ≫= (fun s => if renders s then run s es else None).
Proof. done. Qed.

Lemma renders_status (s s' : State) :
  levels s' = levels s → currentLevelIdx s' = currentLevelIdx s →
  status s' ≠ SETUP → status s ≠ SETUP →
  renders s' = renders s.
Proof.
  intros Hl Hc Hs' Hs. unfold renders. rewrite Hl, Hc.
  by rewrite !(bool_decide_eq_false_2 (_ = SETUP)).
Qed.

Lemma State_ext (s s' : State) :
  levels s = levels s' → currentLevelIdx s = currentLevelIdx s' →
  grid s = grid s' → status s = status s' →
  showQuitModal s = showQuitModal s' → levelStats s = levelStats s' →
  history s = history s' → startTime s = startTime s' →
  timerIntervalRef s = timerIntervalRef s' →
  pendingTimeouts s = pendingTimeouts s' →
  s = s'.
Proof. destruct s, s'. cbn. by intros -> -> -> -> -> -> -> -> -> ->. Qed.

Ltac same_state := apply State_ext; setters; try done.

Lemma timerEffect_fields (prev next : State) :
  levels (timerEffect prev next) = levels next
  ∧ currentLevelIdx (timerEffect prev next) = currentLevelIdx next
  ∧ grid (timerEffect prev next) = grid next
  ∧ status (timerEffect prev next) = status next
  ∧ showQuitModal (timerEffect prev next) = showQuitModal next
  ∧ levelStats (timerEffect prev next) = levelStats next
  ∧ history (timerEffect prev next) = history next
  ∧ startTime (timerEffect prev next) = startTime next
  ∧ pendingTimeouts (timerEffect prev next) = pendingTimeouts next.
Proof. unfold timerEffect. by repeat case_match. Qed.

Lemma renders_timerEffect (prev next : State) :
  renders (timerEffect prev next) = renders next.
Proof.
  unfold renders.
  destruct (timerEffect_fields prev next) as (-> & -> & _ & -> & _).
  done.
Qed.

Lemma autoAdvance_next (now : Z) (c : AutoAdvance) (s : State) (next : Level) :
  capturedLevels c !! (capturedLevelIdx c + 1) = Some next →
  autoAdvance now c s =
    setStartTime (Some now)
      (setStatus PLAYING
         (setStartTime None
            (setLevelStats (mkStats 0 0)
               (setGrid (Types.initialState next)
                  (setCurrentLevelIdx (capturedLevelIdx c + 1) s))))).
Proof.
  intros Hnext. unfold autoAdvance, loadLevel.
  by rewrite (proj2 (Nat.ltb_lt _ _) (lookup_lt_Some _ _ _ Hnext)), Hnext.
Qed.

Lemma autoAdvance_last (now : Z) (c : AutoAdvance) (s : State) :
  capturedLevels c !! (capturedLevelIdx c + 1) = None →
  autoAdvance now c s = setStatus ALL_COMPLETE s.
Proof.
  intros Hnext. unfold autoAdvance.
  by rewrite (proj2 (Nat.ltb_ge _ _) (proj1 (lookup_ge_None _ _) Hnext)).
Qed.

Lemma timerEffect_unchanged (prev next : State) :
  status prev = status next → startTime prev = startTime next →
  timerEffect prev next = next.
Proof.
  intros Hs Ht. unfold timerEffect.
  by rewrite (bool_decide_eq_true_2 _ Hs), (bool_decide_eq_true_2 _ Ht).
Qed.

Lemma timerEffect_changed (prev next : State) :
  status prev ≠ status next →
  timerEffect prev next =
    if bool_decide (status next = PLAYING) && truthy (startTime next)
    then setTimerIntervalRef (startTime next) next
    else setTimerIntervalRef None next.
Proof.
  intros Hne. unfold timerEffect. by rewrite (bool_decide_eq_false_2 _ Hne).
Qed.

Lemma click_ignored (r : State) (index : nat) (now : Z) :
  status r ≠ PLAYING → step r (CellClick index now) = Some r.
Proof.
  intros Hst. unfold step, handle.
  rewrite (bool_decide_eq_false_2 _ Hst). cbn. by rewrite timerEffect_same.
Qed.

Lemma clicks_ignored (r s : State) (clicks : list (nat * Z)) :
  status r ≠ PLAYING → run r (clicksAt clicks) = Some s → s = r.
Proof.
  intros Hst. induction clicks as [|[i t] clicks IH]; [by intros [= <-]|].
  unfold clicksAt. rewrite fmap_cons, run_cons. cbn [fst snd].
  rewrite click_ignored by done. cbn [mbind option_bind].
  destruct (renders r); [exact IH | done].
Qed.

(** One click in PLAYING on a cell of the grid. *)
Lemma click_playing (r : State) (index : nat) (now : Z) (newGrid : list CellState) :
  status r = PLAYING → index < length (grid r) →
  toggleGridCell (grid r) index = Some newGrid →
  step r (CellClick index now) =
    if isLevelSolved newGrid
    then s ← handleLevelComplete now r newGrid
               (setLevelStats (mkStats (timeSeconds (levelStats r))
                                       (steps (levelStats r) + 1))
                  (setGrid newGrid r));
         Some (timerEffect r s)
    else Some (setLevelStats (mkStats (timeSeconds (levelStats r))
                                      (steps (levelStats r) + 1))
                 (setGrid newGrid r)).
Proof.
  intros Hst Hidx Htog. unfold step, handle, handleCellClick.
  rewrite (bool_decide_eq_true_2 _ Hst), (proj2 (Nat.ltb_lt _ _) Hidx), Htog.
  cbn [andb negb mbind option_bind].
  destruct (isLevelSolved newGrid); [done|]. cbn [mbind option_bind].
  f_equal. unfold timerEffect. cbn.
  by rewrite (bool_decide_eq_true_2 (status r = status r)),
    (bool_decide_eq_true_2 (startTime r = startTime r)).
Qed.

Lemma handleLevelComplete_status (now : Z) (r s s' : State) (g : list CellState) :
  handleLevelComplete now r g s = Some s' → status s' = LEVEL_COMPLETE.
Proof.
  unfold handleLevelComplete. destruct (levels r !! currentLevelIdx r); [|done].
  by intros [= <-].
Qed.

(** X4.  A run of clicks on cells of a nine-cell grid that starts and ends
    in PLAYING has counted every click: the grid is the one the toggles
    produce in sequence, the step counter has grown by the number of
    clicks, and the seconds, the history, the level, the start time and
    the pending callbacks are as before. *)
Theorem clicks_counted (r s : State) (clicks : list (nat * Z)) :
  status r = PLAYING →
  length (grid r) = TOTAL_CELLS →
  Forall (fun c => c.1 < TOTAL_CELLS) clicks →
  run r (clicksAt clicks) = Some s →
  status s = PLAYING →
  clickAll (grid r) (fst <$> clicks) = Some (grid s)
  ∧ steps (levelStats s) = (steps (levelStats r) + Z.of_nat (length clicks))%Z
  ∧ timeSeconds (levelStats s) = timeSeconds (levelStats r)
  ∧ history s = history r
  ∧ levels s = levels r
  ∧ currentLevelIdx s = currentLevelIdx r
  ∧ startTime s = startTime r
  ∧ pendingTimeouts s = pendingTimeouts r.
Proof.
  revert r. induction clicks as [|[i t] clicks IH]; intros r Hst Hlen Hidx Hrun Hend.
  - injection Hrun as <-. cbn. repeat split; try done. lia.
  - apply Forall_cons in Hidx as [Hi Hidx]. cbn [fst] in Hi.
    destruct (toggleGridCell_total (grid r) i Hlen Hi) as (newGrid & Htog & Hlen').
    unfold clicksAt in Hrun. rewrite fmap_cons, run_cons in Hrun. cbn [fst snd] in Hrun.
    rewrite (click_playing r i t newGrid) in Hrun by (done || lia).
    destruct (isLevelSolved newGrid) eqn:Hsolved.
    + destruct (handleLevelComplete _ _ _ _) as [s1|] eqn:Hwin; [|done].
      cbn [mbind option_bind] in Hrun.
      apply handleLevelComplete_status in Hwin.
      destruct (renders _); [|done].
      apply clicks_ignored in Hrun as ->;
        [|rewrite timerEffect_status, Hwin; discriminate].
      rewrite timerEffect_status, Hwin in Hend. discriminate Hend.
    + cbn [mbind option_bind] in Hrun.
      destruct (renders _); [|done].
      apply IH in Hrun as (Hg & Hs & Ht & Hh & Hl & Hc & Hst' & Hp);
        [|done..].
      cbn in Hg, Hs, Ht, Hh, Hl, Hc, Hst', Hp.
      rewrite fmap_cons. cbn [fst clickAll]. rewrite Htog. cbn [mbind option_bind].
      repeat split; try done. rewrite Hs, length_cons. lia.
Qed.

Lemma two_clicks_counted :
  let s := default playingOne
             (run playingOne (clicksAt [(0, 2000%Z); (1, 2500%Z)])) in
  steps (levelStats s) = 2%Z
  ∧ clickAll (grid playingOne) [0; 1] = Some (grid s).
Proof.
  intros s.
  destruct (clicks_counted playingOne s [(0, 2000%Z); (1, 2500%Z)])
    as (Hg & Hs & _); [reflexivity | reflexivity | | reflexivity | reflexivity |].
  - repeat constructor; cbn; unfold TOTAL_CELLS, GRID_SIZE; lia.
  - split; [exact Hs | exact Hg].
Defined.

(** The state after a winning click. *)
Lemma click_wins (r : State) (index : nat) (now t0 : Z) (lvl : Level)
    (newGrid : list CellState) :
  status r = PLAYING → startTime r = Some t0 → t0 ≠ 0%Z →
  index < length (grid r) →
  levels r !! currentLevelIdx r = Some lvl →
  toggleGridCell (grid r) index = Some newGrid →
  isLevelSolved newGrid = true →
  let finalStats := mkStats ((now - t0) / 1000) (steps (levelStats r) + 1) in
  step r (CellClick index now) =
    Some (mkState (levels r) (currentLevelIdx r) newGrid LEVEL_COMPLETE
            (showQuitModal r) finalStats
            (history r ++ [LevelRecord.mk (id lvl) (name lvl) finalStats])
            (Some t0) None
            (pendingTimeouts r ++ [mkAutoAdvance (currentLevelIdx r) (levels r)])).
Proof.
  intros Hst Htm Hnz Hidx Hlvl Htog Hsolved finalStats.
  rewrite (click_playing r index now newGrid) by done.
  rewrite Hsolved. unfold handleLevelComplete. rewrite Hlvl, Htm.
  cbn [mbind option_bind truthy default].
  rewrite (proj2 (Z.eqb_neq t0 0) Hnz). cbn [negb mbind option_bind].
  f_equal. rewrite timerEffect_changed by (setters; rewrite Hst; discriminate).
  setters.
  rewrite (bool_decide_eq_false_2 (LEVEL_COMPLETE = PLAYING)) by discriminate.
  same_state.
Qed.

(** X5.  A winning click and then the auto-advance, with no other callback
    pending.  The record of the level is in the history and no callback
    is left.  If a next level exists the run is in PLAYING on it, with its
    initial grid, zeroed stats and the callback's clock reading as start
    time (no IDLE phase in between); if not, the run is in ALL_COMPLETE
    and keeps the solved grid, the final stats and the old start time. *)
Theorem win_then_auto_advance (r : State) (index : nat) (now later t0 : Z)
    (lvl : Level) (newGrid : list CellState) :
  status r = PLAYING → startTime r = Some t0 → t0 ≠ 0%Z →
  pendingTimeouts r = [] →
  index < length (grid r) →
  levels r !! currentLevelIdx r = Some lvl →
  toggleGridCell (grid r) index = Some newGrid →
  isLevelSolved newGrid = true →
  let finalStats := mkStats ((now - t0) / 1000) (steps (levelStats r) + 1) in
  ∃ s,
    run r [CellClick index now; TimeoutFires later] = Some s
    ∧ levels s = levels r
    ∧ history s = history r ++ [LevelRecord.mk (id lvl) (name lvl) finalStats]
    ∧ pendingTimeouts s = []
    ∧ match levels r !! (currentLevelIdx r + 1) with
      | Some next =>
          status s = PLAYING
          ∧ currentLevelIdx s = currentLevelIdx r + 1
          ∧ grid s = Types.initialState next
          ∧ levelStats s = mkStats 0 0
          ∧ startTime s = Some later
      | None =>
          status s = ALL_COMPLETE
          ∧ currentLevelIdx s = currentLevelIdx r
          ∧ grid s = newGrid
          ∧ levelStats s = finalStats
          ∧ startTime s = Some t0
      end.
Proof.
  intros Hst Htm Hnz Hpend Hidx Hlvl Htog Hsolved finalStats.
  rewrite run_cons, (click_wins r index now t0 lvl newGrid) by done.
  cbn [mbind option_bind]. rewrite Hpend. cbn [app]. fold finalStats.
  set (s1 := mkState _ _ _ _ _ _ _ _ _ _).
  assert (Hr1 : renders s1 = true).
  { unfold renders, s1. setters. rewrite Hlvl.
    rewrite (bool_decide_eq_true_2 (is_Some (Some lvl))) by eauto.
    apply orb_true_r. }
  rewrite Hr1, run_cons.
  assert (Hstep : step s1 (TimeoutFires later)
            = Some (timerEffect s1
                      (autoAdvance later
                         (mkAutoAdvance (currentLevelIdx r) (levels r))
                         (setPendingTimeouts [] s1))))
    by done.
  rewrite Hstep. cbn [mbind option_bind].
  rewrite renders_timerEffect.
  destruct (levels r !! (currentLevelIdx r + 1)) as [next|] eqn:Hnext.
  - rewrite (autoAdvance_next later _ _ next) by done.
    cbn [capturedLevelIdx].
    set (s2 := setStartTime _ _).
    destruct (timerEffect_fields s1 s2) as (Hl & Hc & Hg & Hs & _ & Hls & Hh & Ht & Hp).
    assert (Hr2 : renders s2 = true).
    { unfold renders, s2, s1. setters. rewrite Hnext.
      rewrite (bool_decide_eq_true_2 (is_Some (Some next))) by eauto.
      apply orb_true_r. }
    rewrite Hr2. cbn [run]. exists (timerEffect s1 s2). split; [done|].
    rewrite Hl, Hc, Hg, Hs, Hls, Hh, Ht, Hp. unfold s2, s1. by setters.
  - rewrite autoAdvance_last by done.
    set (s2 := setStatus _ _).
    destruct (timerEffect_fields s1 s2) as (Hl & Hc & Hg & Hs & _ & Hls & Hh & Ht & Hp).
    assert (Hr2 : renders s2 = true).
    { unfold renders, s2, s1. setters. rewrite Hlvl.
      rewrite (bool_decide_eq_true_2 (is_Some (Some lvl))) by eauto.
      apply orb_true_r. }
    rewrite Hr2. cbn [run]. exists (timerEffect s1 s2). split; [done|].
    rewrite Hl, Hc, Hg, Hs, Hls, Hh, Ht, Hp. unfold s2, s1. by setters.
Qed.

Lemma win_then_auto_advance_on_level_one :
  ∃ s,
    run playingOne [CellClick 4 3000; TimeoutFires 4000] = Some s
    ∧ status s = PLAYING
    ∧ currentLevelIdx s = 1
    ∧ grid s = Types.initialState levelTwo.
Proof.
  destruct (win_then_auto_advance playingOne 4 3000 4000 1000 levelOne
              (replicate 9 true))
    as (s & Hrun & _ & _ & _ & Hnext);
    [reflexivity | reflexivity | discriminate | reflexivity
    | cbn; lia | reflexivity | reflexivity | reflexivity |].
  cbn in Hnext. destruct Hnext as (? & ? & ? & _).
  by exists s.
Defined.

Lemma sumSeconds_snoc (h : list LevelRecord.t) (rec : LevelRecord.t) :
  sumSeconds (h ++ [rec]) = (sumSeconds h + timeSeconds (LevelRecord.stats rec))%Z.
Proof. induction h as [|x h IH]; cbn; [lia|]. unfold sumSeconds in IH. rewrite IH. lia. Qed.

Lemma sumSteps_snoc (h : list LevelRecord.t) (rec : LevelRecord.t) :
  sumSteps (h ++ [rec]) = (sumSteps h + steps (LevelRecord.stats rec))%Z.
Proof. induction h as [|x h IH]; cbn; [lia|]. unfold sumSteps in IH. rewrite IH. lia. Qed.

(** X6.  Right after a winning click the totals count the finished level
    twice: its record is already in the history, and in LEVEL_COMPLETE
    the current stats, which are the final stats, are added as well. *)
Theorem totals_after_win (r : State) (index : nat) (now t0 : Z) (lvl : Level)
    (newGrid : list CellState) :
  status r = PLAYING → startTime r = Some t0 → t0 ≠ 0%Z →
  index < length (grid r) →
  levels r !! currentLevelIdx r = Some lvl →
  toggleGridCell (grid r) index = Some newGrid →
  isLevelSolved newGrid = true →
  ∃ s,
    step r (CellClick index now) = Some s
    ∧ totalStats (history s) (levelStats s) (status s) =
        mkStats (sumSeconds (history r) + 2 * ((now - t0) / 1000))
                (sumSteps (history r) + 2 * (steps (levelStats r) + 1)).
Proof.
  intros Hst Htm Hnz Hidx Hlvl Htog Hsolved.
  rewrite (click_wins r index now t0 lvl newGrid) by done.
  eexists. split; [reflexivity|]. cbn [history levelStats status].
  unfold totalStats. rewrite Totals.reduce_from, sumSeconds_snoc, sumSteps_snoc.
  cbn. f_equal; lia.
Qed.

Lemma totals_after_win_on_level_one :
  ∃ s,
    step playingOne (CellClick 4 3000) = Some s
    ∧ totalStats (history s) (levelStats s) (status s) = mkStats 4 2.
Proof.
  destruct (totals_after_win playingOne 4 3000 1000 levelOne (replicate 9 true))
    as (s & Hstep & Htot);
    [reflexivity | reflexivity | discriminate | cbn; lia
    | reflexivity | reflexivity | reflexivity |].
  exists s. split; [exact Hstep | exact Htot].
Defined.

















(** X10.  The pending auto-advance and an edited level list.  In SETUP
    with a callback pending whose captured list has a next level, if the
    panel replaces the level list by one too short to hold that level's
    index and the callback then fires, the component is put in PLAYING
    on a level that does not exist, its render throws, and it is
    unmounted. *)
Theorem stale_auto_advance_unmounts (q : State) (c : AutoAdvance)
    (rest : list AutoAdvance) (ls : list Level) (now : Z) :
  status q = SETUP →
  pendingTimeouts q = c :: rest →
  capturedLevelIdx c + 1 < length (capturedLevels c) →
  length ls ≤ capturedLevelIdx c + 1 →
  run q [AdminSetLevels ls; TimeoutFires now] = None.
Proof.
  intros Hst Hpend Hnext Hshort.
  assert (Hset : step q (AdminSetLevels ls) = Some (setLevels ls q)).
  { unfold step, handle. rewrite (bool_decide_eq_true_2 _ Hst).
    cbn [mbind option_bind]. f_equal. by apply timerEffect_unchanged. }
  rewrite run_cons, Hset. cbn [mbind option_bind].
  assert (Hr : renders (setLevels ls q) = true).
  { unfold renders. setters. by rewrite (bool_decide_eq_true_2 _ Hst). }
  rewrite Hr, run_cons.
  assert (Hfire : step (setLevels ls q) (TimeoutFires now)
            = Some (timerEffect (setLevels ls q)
                      (autoAdvance now c
                         (setPendingTimeouts rest (setLevels ls q))))).
  { unfold step, handle. setters. by rewrite Hpend. }
  rewrite Hfire. cbn [mbind option_bind]. rewrite renders_timerEffect.
  destruct (lookup_lt_is_Some_2 (capturedLevels c) (capturedLevelIdx c + 1) Hnext)
    as [next Hl].
  rewrite (autoAdvance_next now c _ next Hl).
  unfold renders. setters.
  rewrite (bool_decide_eq_false_2 (PLAYING = SETUP)) by discriminate.
  rewrite (proj2 (lookup_ge_None ls (capturedLevelIdx c + 1))) by lia.
  rewrite (bool_decide_eq_false_2 (is_Some None)); [done|].
  by intros [? ?].
Qed.

Lemma stale_auto_advance_unmounts_after_quit :
  run (default initialState (run initialState quitWhilePending))
    [AdminSetLevels []; TimeoutFires 4000] = None.
Proof.
  apply (stale_auto_advance_unmounts _ (mkAutoAdvance 0 [levelOne; levelTwo]) []);
    [reflexivity | reflexivity | cbn; lia | cbn; lia].
Defined.

(** X11.  The start of a competition, in SETUP.  With no level the click
    does nothing.  With levels, the run is in IDLE on level 0 with that
    level's grid, zeroed stats, no start time and an empty history,
    whatever an earlier competition had left behind; the level list is as
    it was. *)
Theorem start_competition (r : State) :
  status r = SETUP →
  match levels r with
  | [] => step r StartCompetition = Some r
  | level :: _ =>
      ∃ s, step r StartCompetition = Some s
           ∧ renders s = true
           ∧ status s = IDLE
           ∧ currentLevelIdx s = 0
           ∧ grid s = Types.initialState level
           ∧ levelStats s = mkStats 0 0
           ∧ startTime s = None
           ∧ history s = []
           ∧ levels s = levels r
           ∧ timerIntervalRef s = None
  end.
Proof.
  intros Hst. unfold step, handle. rewrite (bool_decide_eq_true_2 _ Hst).
  destruct (levels r) as [|level ls] eqn:Hl.
  - cbn. by rewrite timerEffect_same.
  - cbn [length Nat.eqb negb andb]. unfold startGame. rewrite Hl.
    cbn [length Nat.eqb]. unfold loadLevel. cbn [lookup list_lookup].
    cbn [mbind option_bind]. eexists. split; [reflexivity|].
    unfold timerEffect, renders. setters. rewrite Hst.
    rewrite (bool_decide_eq_false_2 (SETUP = IDLE)) by discriminate.
    rewrite (bool_decide_eq_false_2 (IDLE = PLAYING)) by discriminate.
    cbn [andb]. setters. rewrite Hl. by cbn.
Qed.

Lemma start_competition_with_two_levels :
  ∃ s, step (setLevels [levelOne; levelTwo] initialState) StartCompetition
         = Some s
       ∧ status s = IDLE
       ∧ grid s = Types.initialState levelOne.
Proof.
  destruct (start_competition (setLevels [levelOne; levelTwo] initialState)
              eq_refl) as (s & Hs & _ & Hst & _ & Hg & _).
  by exists s.
Defined.

End RunMore.

(** ** The level repository *)

Module PanelMore.

Import AdminPanel Editor Documents ImportFacts IdFacts Panel PanelOps.

Lemma State_eta (s : State) :
  mkState (levels s) (jsonInput s) (exportData s) = s.
Proof. by destruct s. Qed.

(** X12.  Whatever the document, an import either fails and returns the
    panel exactly as it was, or succeeds, keeps every earlier level in
    front, appends as many levels as it reports (at least one) and empties
    the input box; it never touches the export text. *)
Theorem import_fails_whole_or_appends (R : Readings) (parsed : option Json.t)
    (s : State) :
  match (parseAndLoadLevels R parsed s).2 with
  | ImportFailed _ => (parseAndLoadLevels R parsed s).1 = s
  | Imported n =>
      0 < n
      ∧ ∃ added,
          length added = n
          ∧ (parseAndLoadLevels R parsed s).1 =
              mkState (levels s ++ added) "" (exportData s)
  end.
Proof.
  destruct parsed as [parsed|]; [|done].
  destruct parsed as [| | | |elems|fields]; try done.
  - rewrite parseAndLoadLevels_array.
    destruct (existsb Json.isNull elems); [done|].
    destruct (List.filter accepts elems) as [|l valid] eqn:Hf; [done|].
    cbn [fst snd]. split; [cbn; lia|].
    eexists. split; [|reflexivity]. by rewrite length_imap.
  - rewrite (parseAndLoadLevels_elements R (Json.Obj fields)) by done.
    rewrite parseAndLoadLevels_array.
    destruct (existsb Json.isNull _); [done|].
    destruct (List.filter accepts _) as [|l valid] eqn:Hf; [done|].
    cbn [fst snd]. split; [cbn; lia|].
    eexists. split; [|reflexivity]. by rewrite length_imap.
Qed.

(** X13.  Which error an import reports.  A text that does not parse
    gives the parser's error; a parsed number, string or boolean is
    refused as no array; otherwise a [null] among the elements gives the
    error of the property read, and without one the import fails with
    "no valid level" exactly when no element has an [initialState] of
    nine elements. *)
Theorem import_error_kinds (R : Readings) (parsed : option Json.t) (s : State) :
  (parseAndLoadLevels R parsed s).2 =
    match parsed with
    | None => ImportFailed SyntaxError
    | Some doc =>
        if isScalar doc then ImportFailed NotAnArray
        else if existsb Json.isNull (elementsOf doc) then ImportFailed TypeError
        else match length (List.filter hasNineCells (elementsOf doc)) with
             | 0 => ImportFailed NoValidLevels
             | S n => Imported (S n)
             end
    end.
Proof.
  destruct parsed as [parsed|]; [|done].
  destruct parsed as [| | | |elems|fields]; try done.
  - rewrite parseAndLoadLevels_array. cbn [isScalar elementsOf].
    rewrite <-filter_accepts.
    destruct (existsb Json.isNull elems); [done|].
    by destruct (List.filter accepts elems).
  - rewrite (parseAndLoadLevels_elements R (Json.Obj fields)) by done.
    rewrite parseAndLoadLevels_array. cbn [isScalar].
    rewrite <-filter_accepts.
    destruct (existsb Json.isNull _); [done|].
    by destruct (List.filter accepts _).
Qed.

Lemma filter_all {A : Type} (P : A → Prop) `{∀ x, Decision (P x)} (l : list A) :
  Forall P l → filter P l = l.
Proof.
  induction 1 as [|x l Hx _ IH]; [done|].
  by rewrite filter_cons_True, IH.
Qed.

(** X14.  [removeLevel] removes every level that carries the identifier
    and nothing else: no level of the result has it, the other levels
    stay, in their order, and the input box and the export text are
    untouched.  Removing an identifier that no level carries changes
    nothing, and two removals commute. *)
Theorem removeLevel_removes (id id' : string) (s : State) :
  (∀ l, l ∈ levels (removeLevel id s) ↔ l ∈ levels s ∧ Types.id l ≠ id)
  ∧ levels (removeLevel id s) `sublist_of` levels s
  ∧ jsonInput (removeLevel id s) = jsonInput s
  ∧ exportData (removeLevel id s) = exportData s
  ∧ ((∀ l, l ∈ levels s → Types.id l ≠ id) → removeLevel id s = s)
  ∧ removeLevel id (removeLevel id' s) = removeLevel id' (removeLevel id s).
Proof.
  split.
  { intros l. cbn. rewrite list_elem_of_filter. tauto. }
  split; [apply sublist_filter|].
  split; [done|]. split; [done|].
  split.
  { intros Hnone. unfold removeLevel.
    rewrite filter_all; [apply State_eta | by apply Forall_forall]. }
  unfold removeLevel. cbn [levels jsonInput exportData]. f_equal.
  rewrite !list_filter_filter. apply list_filter_iff. tauto.
Qed.

Lemma removeLevel_on_named_panel :
  removeLevel "missing" onePanel = onePanel
  ∧ levels (removeLevel "level-1699999999999" onePanel) = [].
Proof.
  split.
  - destruct (removeLevel_removes "missing" "missing" onePanel)
      as (_ & _ & _ & _ & Hnone & _).
    apply Hnone. intros l ->%list_elem_of_singleton. discriminate.
  - reflexivity.
Defined.

(** X15.  A level added from the editor goes to the end of the list
    under the identifier [level-] followed by the clock reading, and with
    the editor's cells.  If no level carried that identifier before,
    removing it again gives back the panel as it was; and two levels
    added at one clock reading share the identifier, so that one removal
    takes both. *)
Theorem add_then_remove (now : Z) (editorGrid other : list CellState) (s : State) :
  (∀ l, l ∈ levels s → id l ≠ "level-" +:+ pretty now) →
  levels (addLevelFromEditor now editorGrid s) =
    levels s ++ [mkLevel ("level-" +:+ pretty now)
                   (Json.Str ("关卡 " +:+ pretty (length (levels s) + 1)))
                   (Json.Bool <$> editorGrid)]
  ∧ removeLevel ("level-" +:+ pretty now) (addLevelFromEditor now editorGrid s) = s
  ∧ removeLevel ("level-" +:+ pretty now)
      (addLevelFromEditor now other (addLevelFromEditor now editorGrid s)) = s.
Proof.
  intros Hfresh. split; [done|].
  assert (Hkeep : filter (fun l : AnyLevel => id l ≠ "level-" +:+ pretty now)
                    (levels s) = levels s)
    by (apply filter_all; by apply Forall_forall).
  split; unfold removeLevel, addLevelFromEditor;
    cbn [levels jsonInput exportData];
    rewrite !filter_app, Hkeep;
    rewrite !filter_cons_False by (cbn; tauto);
    rewrite filter_nil, ?app_nil_r; apply State_eta.
Qed.

Lemma add_then_remove_on_named_panel :
  removeLevel "level-1700000000000"
    (addLevelFromEditor 1700000000000 (replicate 9 true) onePanel) = onePanel.
Proof.
  destruct (add_then_remove 1700000000000 (replicate 9 true) [] onePanel)
    as (_ & Hback & _); [|exact Hback].
  intros l ->%list_elem_of_singleton. discriminate.
Defined.

Lemma toCells_of (cells : list CellState) :
  JsArray.toCells (JsArray.ofCells cells) = Some cells.
Proof.
  induction cells as [|b cells IH]; [done|].
  change (JsArray.toCells (Some b :: JsArray.ofCells cells) = Some (b :: cells)).
  cbn [JsArray.toCells mbind option_bind]. by rewrite IH.
Qed.

Lemma get_of (cells : list CellState) (i : nat) :
  JsArray.get (JsArray.ofCells cells) i = cells !! i.
Proof.
  unfold JsArray.get, JsArray.ofCells. rewrite list_lookup_fmap.
  by destruct (cells !! i).
Qed.

(** X16.  A click in the editor on a cell of the grid inverts that cell
    and no other, keeps the number of cells, and a second click on the
    same cell gives back the grid. *)
Theorem editor_click_inverts (index : nat) (editorGrid : list CellState)
    (b : CellState) :
  editorGrid !! index = Some b →
  handleEditorClick index editorGrid = Some (<[index := negb b]> editorGrid)
  ∧ (∀ j, j ≠ index →
       (<[index := negb b]> editorGrid) !! j = editorGrid !! j)
  ∧ length (<[index := negb b]> editorGrid) = length editorGrid
  ∧ handleEditorClick index editorGrid
      ≫= handleEditorClick index = Some editorGrid.
Proof.
  intros Hb.
  assert (Hclick : ∀ (g : list CellState) (c : CellState), g !! index = Some c →
            handleEditorClick index g = Some (<[index := negb c]> g)).
  { intros g c Hc. unfold handleEditorClick. cbv zeta.
    unfold JsArray.flip, JsArray.set.
    rewrite get_of, Hc. cbn [JsArray.not].
    unfold JsArray.ofCells at 1. rewrite length_fmap.
    rewrite (proj2 (Nat.ltb_lt _ _) (lookup_lt_Some _ _ _ Hc)).
    unfold JsArray.ofCells.
    rewrite <-(list_fmap_insert Some g index (negb c)).
    apply toCells_of. }
  split; [by apply Hclick|].
  split; [by intros j Hj; apply list_lookup_insert_ne|].
  split; [apply length_insert|].
  rewrite (Hclick editorGrid b Hb). cbn [mbind option_bind].
  rewrite (Hclick _ (negb b)).
  - rewrite list_insert_insert_eq, negb_involutive.
    f_equal. by apply list_insert_id.
  - apply list_lookup_insert_eq. by eapply lookup_lt_Some.
Qed.

Lemma editor_click_on_empty_grid :
  handleEditorClick 4 resetEditor
  = Some [false; false; false; false; true; false; false; false; false].
Proof.
  destruct (editor_click_inverts 4 resetEditor false eq_refl) as [Hclick _].
  exact Hclick.
Defined.






Lemma importedName_truthy (k : nat) :
  Json.truthy (Json.Str (importedName k)) = true.
Proof. unfold importedName. cbn. by rewrite bool_decide_eq_false_2. Qed.

Lemma cleanLevel_wellFormed (R : Readings) (k : nat) (l : Json.t) :
  accepts l = true → wellFormed (cleanLevel R k l) = true.
Proof.
  rewrite accepts_hasNineCells.
  intros (fields & cells & -> & Hf & Hlen)%hasNineCells_inv.
  unfold wellFormed, cleanLevel, nameOrDefault, cellsOf, getProp.
  cbn [Types.initialState name]. rewrite Hf, Hlen, Nat.eqb_refl.
  destruct (Json.getField "name" fields) as [v|];
    [destruct (Json.truthy v) eqn:Hv|]; cbn [andb];
    by rewrite ?Hv, ?importedName_truthy.
Qed.

Lemma perform_wellFormed (op : Op) (s : State) :
  fromEditor op →
  Forall (fun l => wellFormed l = true) (levels s) →
  Forall (fun l => wellFormed l = true) (levels (perform op s)).
Proof.
  intros Hop Hs. destruct op as [now g|id| |R parsed]; cbn [perform].
  - cbn. apply Forall_app. split; [done|]. constructor; [|constructor].
    unfold wellFormed. cbn [Types.initialState name ofLevel].
    rewrite length_fmap, Hop, Nat.eqb_refl. cbn.
    by rewrite bool_decide_eq_false_2.
  - cbn. apply Forall_forall. intros l [_ Hl]%list_elem_of_filter.
    by apply (proj1 (Forall_forall _ _) Hs).
  - cbn. constructor.
  - destruct parsed as [parsed|]; [|done].
    destruct parsed as [| | | |elems|fields]; try done.
    + rewrite parseAndLoadLevels_array.
      destruct (existsb Json.isNull elems); [done|].
      destruct (List.filter accepts elems) as [|l valid] eqn:Hf; [done|].
      cbn [fst levels]. apply Forall_app. split; [done|].
      apply Forall_lookup. intros k c. rewrite list_lookup_imap.
      destruct ((l :: valid) !! k) as [x|] eqn:Hx; [|done]. intros [= <-].
      apply cleanLevel_wellFormed.
      apply list_elem_of_lookup_2 in Hx. rewrite <-Hf in Hx.
      apply list_elem_of_In, filter_In in Hx. tauto.
    + rewrite (parseAndLoadLevels_elements R (Json.Obj fields)) by done.
      rewrite parseAndLoadLevels_array.
      destruct (existsb Json.isNull _); [done|].
      destruct (List.filter accepts _) as [|l valid] eqn:Hf; [done|].
      cbn [fst levels]. apply Forall_app. split; [done|].
      apply Forall_lookup. intros k c. rewrite list_lookup_imap.
      destruct ((l :: valid) !! k) as [x|] eqn:Hx; [|done]. intros [= <-].
      apply cleanLevel_wellFormed.
      apply list_elem_of_lookup_2 in Hx. rewrite <-Hf in Hx.
      apply list_elem_of_In, filter_In in Hx. tauto.
Qed.

(** X18.  Whatever is added from the nine-cell editor, imported from
    whatever document, removed or cleared, in whatever order, every level
    of the list has exactly nine cells and a truthy name; so the list can
    always be exported and read back as X17 says. *)
Theorem panel_levels_well_formed (ops : list Op) :
  Forall fromEditor ops →
  Forall (fun l => wellFormed l = true) (levels (performAll ops emptyPanel)).
Proof.
  intros Hops. unfold performAll.
  cut (∀ s, Forall (fun l => wellFormed l = true) (levels s) →
            Forall (fun l => wellFormed l = true)
              (levels (foldl (fun s op => perform op s) s ops))).
  { intros Hall. apply Hall. constructor. }
  induction Hops as [|op ops Hop _ IH]; intros s Hs; [done|].
  cbn [foldl]. apply IH. by apply perform_wellFormed.
Qed.

Lemma panel_after_some_operations :
  Forall (fun l => wellFormed l = true)
    (levels (performAll
               [ Add 1700000000000 (replicate 9 false);
                 Import steppedReadings (Some mixedDocument);
                 Remove "level-1700000000000" ]
               emptyPanel)).
Proof.
  apply panel_levels_well_formed.
  repeat constructor.
Defined.

End PanelMore.

(** ** The clock display *)

Module DisplayMore.

Import Display Panel Clock.

Lemma cut_at (c : ascii) (s1 s2 x y : string) :
  charFree c s1 → charFree c s2 →
  s1 +:+ String c x = s2 +:+ String c y →
  s1 = s2 ∧ x = y.
Proof.
  revert s2. induction s1 as [|d s1 IH]; intros [|e s2]; cbn.
  - by intros _ _ [= ->].
  - by intros _ [He _] [= <- _].
  - by intros [Hd _] _ [= -> _].
  - intros [_ H1] [_ H2] [= -> Heq].
    by destruct (IH s2 H1 H2 Heq) as [-> ->].
Qed.

Lemma digit_not_colon (x : N) : pretty_N_char x ≠ ":"%char.
Proof. unfold pretty_N_char. by repeat case_match. Qed.

Lemma go_colonFree (x : N) (s : string) :
  charFree ":" s → charFree ":" (pretty_N_go x s).
Proof.
  revert s. induction (N.lt_wf_0 x) as [x _ IH]. intros s Hs.
  destruct (decide (x = 0%N)) as [-> | Hx]; [by rewrite pretty_N_go_0|].
  rewrite pretty_N_go_step by lia.
  apply IH; [apply N.div_lt; lia|].
  split; [apply digit_not_colon | done].
Qed.

Lemma go_leading (x : N) (s : string) :
  (0 < x)%N →
  ∃ d rest, pretty_N_go x s = String d rest ∧ d ≠ "0"%char.
Proof.
  revert s. induction (N.lt_wf_0 x) as [x _ IH]. intros s Hx.
  rewrite pretty_N_go_step by done.
  destruct (decide (x `div` 10 = 0)%N) as [Hsmall | Hbig].
  - rewrite Hsmall, pretty_N_go_0. eexists _, _. split; [done|].
    assert (x < 10)%N by (apply (N.div_small_iff x 10); [lia|done]).
    rewrite N.mod_small by done.
    assert (x = 1 ∨ x = 2 ∨ x = 3 ∨ x = 4 ∨ x = 5 ∨ x = 6
            ∨ x = 7 ∨ x = 8 ∨ x = 9)%N as Hcases by lia.
    by destruct Hcases as [->|[->|[->|[->|[->|[->|[->|[->| ->]]]]]]]].
  - apply IH; [apply N.div_lt; lia | by apply N.neq_0_lt_0].
Qed.

Lemma pretty_N_numeral (x : N) : numeral ":" (pretty x).
Proof.
  unfold numeral, pretty, pretty_N. case_decide as Hx.
  - split; [by cbn|]. split; [done|]. by intros rest [= <-].
  - destruct (go_leading x "" ltac:(lia)) as (d & rest & Hgo & Hd).
    split; [by apply go_colonFree|]. rewrite Hgo.
    split; [done|]. intros rest' [= -> _]. done.
Qed.

Lemma pretty_Z_numeral (z : Z) : (0 ≤ z)%Z → numeral ":" (pretty z).
Proof.
  destruct z as [|p|p]; [intros _ | intros _ | lia].
  - apply (pretty_N_numeral 0).
  - apply (pretty_N_numeral (Npos p)).
Qed.

Lemma padStart2_colonFree (s : string) :
  charFree ":" s → charFree ":" (padStart2 s).
Proof.
  intros Hs. unfold padStart2.
  destruct (2 - String.length s) as [|[|[|n]]] eqn:Hn; cbn; try done.
  destruct s as [|? [|? ?]]; cbn in Hn; lia.
Qed.

Lemma padStart2_inj (s t : string) :
  numeral ":" s → numeral ":" t → padStart2 s = padStart2 t → s = t.
Proof.
  intros (_ & Hs & Hs0) (_ & Ht & Ht0). unfold padStart2.
  destruct s as [|a [|a' s]]; [done|..]; destruct t as [|b [|b' t]];
    try done; cbn.
  - by intros [= ->].
  - intros [= <- <- <-]. by specialize (Ht0 _ eq_refl).
  - intros [= -> -> ->]. by specialize (Hs0 _ eq_refl).
Qed.

(** X19.  Two different whole numbers of seconds, neither negative, are
    displayed differently. *)
Theorem formatTime_injective (a b : Z) :
  (0 ≤ a)%Z → (0 ≤ b)%Z → formatTime a = formatTime b → a = b.
Proof.
  intros Ha Hb. unfold formatTime.
  rewrite !Z.rem_mod_nonneg by lia.
  assert (Hdiv : ∀ z, (0 ≤ z)%Z → numeral ":" (pretty (z `div` 60)%Z))
    by (intros z Hz; apply pretty_Z_numeral; apply Z.div_pos; lia).
  assert (Hmod : ∀ z, (0 ≤ z)%Z → numeral ":" (pretty (z `mod` 60)%Z))
    by (intros z Hz; apply pretty_Z_numeral; apply Z.mod_pos_bound; lia).
  intros Heq.
  apply cut_at in Heq as [Hm Hs];
    [|apply padStart2_colonFree; by apply Hdiv..].
  apply padStart2_inj, (inj pretty) in Hm; [|by apply Hdiv..].
  apply padStart2_inj, (inj pretty) in Hs; [|by apply Hmod..].
  rewrite (Z.div_mod a 60), (Z.div_mod b 60) by lia. lia.
Qed.

Lemma formatTime_injective_at_75 :
  formatTime 75 = "01:15"%string ∧ (60 + 15 = 75)%Z.
Proof.
  split; [vm_compute; reflexivity|].
  apply formatTime_injective; [lia | lia | vm_compute; reflexivity].
Defined.

Lemma twoDigits_below_100 (k : nat) :
  k < 100 → padStart2 (pretty (Z.of_nat k)) = twoDigits (Z.of_nat k).
Proof.
  intros Hk.
  do 100 (destruct k as [|k]; [vm_compute; reflexivity|]). lia.
Qed.

(** X20.  Below a hundred minutes the display is the two digits of the
    minutes, a colon, and the two digits of the seconds within the
    minute. *)
Theorem formatTime_clock_face (seconds : Z) :
  (0 ≤ seconds < 6000)%Z →
  formatTime seconds =
    twoDigits (seconds `div` 60) +:+ ":" +:+ twoDigits (seconds `mod` 60).
Proof.
  intros Hs. unfold formatTime. rewrite Z.rem_mod_nonneg by lia.
  assert (Ht : ∀ z, (0 ≤ z < 100)%Z → padStart2 (pretty z) = twoDigits z).
  { intros z Hz. rewrite <-(Z2Nat.id z) by lia.
    apply twoDigits_below_100. lia. }
  rewrite !Ht; [done| |].
  - pose proof (Z.mod_pos_bound seconds 60). lia.
  - split; [apply Z.div_pos; lia|]. apply Z.div_lt_upper_bound; lia.
Qed.

Lemma formatTime_of_75 : formatTime 75 = "01:15"%string.
Proof.
  rewrite formatTime_clock_face by lia. vm_compute. reflexivity.
Defined.

End DisplayMore.
